(** * SAM Law portal: the document upload handler ([utils/file_handler.py])

    A shallow embedding of the upload handler and of the small part of
    the Python runtime it runs on (strings, a directory-per-case file
    system, the upload object, the hash accumulator), followed by the
    properties of validation, ingestion, lookup and deletion.

    Conventions.
    - A Python [str] is a Rocq [string]; a character is a code point
      below 256.  Everything the handler does with text is exact on
      that repertoire, except Unicode normalisation, which is a field
      of the platform record below.
    - A Python [bytes] is a [list byte].
    - A function that can raise returns an [outcome]; a function that
      touches the disk takes and returns the file system. *)

From Stdlib Require Import Ascii String DecimalString NArith ZArith Lia.
From Stdlib.Strings Require Import Byte.
From stdpp Require Import base option list strings gmap.
From Equations Require Import Equations.
From Equations.Prop Require Import Logic.

Local Open Scope string_scope.
Local Open Scope list_scope.

(** ** Python strings *)

Module Str.

(** [c in s] for a one-character [c]. *)
Fixpoint contains (c : ascii) (s : string) : bool :=
  match s with
  | EmptyString => false
  | String a r => if Ascii.eqb a c then true else contains c r
  end.

(** The cut at the last occurrence of [sep]: the text before it and
    the text after it. *)
Fixpoint rcut (sep : ascii) (s : string) : option (string * string) :=
  match s with
  | EmptyString => None
  | String a r =>
      match rcut sep r with
      | Some (h, t) => Some (String a h, t)
      | None => if Ascii.eqb a sep then Some (EmptyString, r) else None
      end
  end.

(** [s.rsplit(sep, 1)]: two pieces when [sep] occurs, else [[s]]. *)
Definition rsplit1 (sep : ascii) (s : string) : list string :=
  match rcut sep s with
  | Some (h, t) => [h; t]
  | None => [s]
  end.

(** [str.lower] on one code point below 256: A-Z, and the Latin-1
    capitals U+00C0..U+00DE without the multiplication sign. *)
Definition lower_char (c : ascii) : ascii :=
  let n := N_of_ascii c in
  if ((65 <=? n) && (n <=? 90))%N then ascii_of_N (n + 32)
  else if ((192 <=? n) && (n <=? 222) && negb (n =? 215))%N then ascii_of_N (n + 32)
  else c.

Fixpoint lower (s : string) : string :=
  match s with
  | EmptyString => EmptyString
  | String a r => String (lower_char a) (lower r)
  end.

(** [s.startswith(p)]. *)
Fixpoint startswith (s p : string) : bool :=
  match p, s with
  | EmptyString, _ => true
  | String _ _, EmptyString => false
  | String b p', String a s' => Ascii.eqb a b && startswith s' p'
  end.

(** [sep.join(parts)]. *)
Fixpoint join (sep : string) (parts : list string) : string :=
  match parts with
  | [] => EmptyString
  | [x] => x
  | x :: rest => x +:+ sep +:+ join sep rest
  end.

(** Equality of the lower-case forms, [a.lower() == b.lower()]: the
    comparison as the code makes it.  What it means for two strings to
    differ in case only is said without [lower] by
    [same_ignoring_case], further down. *)
Definition caseless_eq (a b : string) : Prop := lower a = lower b.

End Str.

(** ** Configuration constants of the module *)

(** [ALLOWED_EXTENSIONS]: a dict literal, kept in insertion order. *)
Definition ALLOWED_EXTENSIONS : list (string * string) :=
  [ ("pdf", "application/pdf");
    ("doc", "application/msword");
    ("docx", "application/vnd.openxmlformats-officedocument.wordprocessingml.document");
    ("jpg", "image/jpeg");
    ("jpeg", "image/jpeg");
    ("png", "image/png");
    ("txt", "text/plain") ].

(** [key in d], [d.keys()] and [d.get(key)] on such a dict. *)
Definition dict_keys (d : list (string * string)) : list string := d.*1.

Definition dict_mem (k : string) (d : list (string * string)) : bool :=
  bool_decide (k ∈ dict_keys d).

Fixpoint dict_get (k : string) (d : list (string * string)) : option string :=
  match d with
  | [] => None
  | (k', v) :: rest => if String.eqb k' k then Some v else dict_get k rest
  end.

(** [MAX_FILE_SIZE = 50 * 1024 * 1024]. *)
Definition MAX_FILE_SIZE : N := 50 * 1024 * 1024.

(** ** [allowed_file] *)

(** ['.' in filename and filename.rsplit('.', 1)[1].lower() in
    ALLOWED_EXTENSIONS].  The conjunction short-circuits, so the index
    is only taken when there is a dot, where it exists
    ([rsplit1_dot_index] below). *)
Definition allowed_file (filename : string) : bool :=
  Str.contains "." filename &&
  match Str.rsplit1 "." filename !! 1%nat with
  | Some ext => dict_mem (Str.lower ext) ALLOWED_EXTENSIONS
  | None => false
  end.

(** The allow-list as the specification names it. *)
Definition allow_list : list string :=
  ["pdf"; "doc"; "docx"; "jpg"; "jpeg"; "png"; "txt"].

(** ** [werkzeug.utils.secure_filename] (POSIX) *)

Module Werkzeug.

(** Whitespace as [str.split()] sees it among the ASCII code points:
    tab, line feed, vertical tab, form feed, carriage return, the four
    separators U+001C..U+001F and the space. *)
Definition is_space (c : ascii) : bool :=
  let n := N_of_ascii c in
  (((9 <=? n) && (n <=? 13)) || ((28 <=? n) && (n <=? 32)))%N.

(** [s.split()]: the maximal runs of non-space characters. [cur] is
    the run being read, reversed. *)
Fixpoint split_go (cur : option string) (s : string) : list string :=
  match s with
  | EmptyString => option_list (String.rev <$> cur)
  | String a r =>
      if is_space a
      then option_list (String.rev <$> cur) ++ split_go None r
      else split_go (Some (String a (default EmptyString cur))) r
  end.

Definition split (s : string) : list string := split_go None s.

(** [s.replace(a, b)] for one-character [a] and [b]. *)
Fixpoint replace (a b : ascii) (s : string) : string :=
  match s with
  | EmptyString => EmptyString
  | String c r => String (if Ascii.eqb c a then b else c) (replace a b r)
  end.

(** The class [[A-Za-z0-9_.-]] of [_filename_ascii_strip_re]. *)
Definition is_safe (c : ascii) : bool :=
  let n := N_of_ascii c in
  (((65 <=? n) && (n <=? 90)) || ((97 <=? n) && (n <=? 122))
   || ((48 <=? n) && (n <=? 57)) || (n =? 95) || (n =? 46) || (n =? 45))%N.

(** [re.sub("[^A-Za-z0-9_.-]", "", s)]. *)
Fixpoint keep_safe (s : string) : string :=
  match s with
  | EmptyString => EmptyString
  | String c r => if is_safe c then String c (keep_safe r) else keep_safe r
  end.

Definition is_dot_or_underscore (c : ascii) : bool :=
  Ascii.eqb c "." || Ascii.eqb c "_".

Fixpoint lstrip (s : string) : string :=
  match s with
  | EmptyString => EmptyString
  | String c r => if is_dot_or_underscore c then lstrip r else s
  end.

(** [s.strip("._")]. *)
Definition strip (s : string) : string :=
  String.rev (lstrip (String.rev (lstrip s))).

(** [secure_filename], given the result [ascii_form] of its first two
    lines ([unicodedata.normalize("NFKD", filename)] encoded to ASCII
    with the characters that have no ASCII form dropped).  [os.sep] is
    the slash, [os.path.altsep] is [None], and the guard on Windows
    device names does not apply. *)
Definition secure_filename_ascii (ascii_form : string) : string :=
  let filename := replace "/" " " ascii_form in
  strip (keep_safe (Str.join "_" (split filename))).

End Werkzeug.

(** ** The platform: what the handler takes from its environment *)

(** A stored file is named by the directory that holds it and its name
    in that directory: the two arguments of [os.path.join]. Entry names
    hold no separator. *)
Definition path : Type := string * string.

Inductive exn : Type :=
| IndexError
| FileNotFoundError (p : path)
| PermissionError (p : path)
| OSError (strerror : string).

Inductive outcome (A : Type) : Type :=
| Return (a : A)
| Raise (e : exn).
Arguments Return {A} a.
Arguments Raise {A} e.

Record Platform : Type := {
  (** [os.path.join(os.path.dirname(os.path.dirname(__file__)), 'uploads')] *)
  UPLOAD_FOLDER : string;
  (** [unicodedata.normalize("NFKD", s).encode("ascii", "ignore").decode("ascii")] *)
  nfkd_ascii : string → string;
  (** [mimetypes.guess_type(name)[0]] *)
  guess_type : string → option string;
  (** [hashlib.sha256(data).hexdigest()] *)
  sha256_hexdigest : list byte → string;
  (** [str(uuid.uuid4())], for the n-th identifier drawn *)
  uuid4 : nat → string;
  (** [str(e)] *)
  exn_str : exn → string
}.

(** ** The file system *)

(** A regular file: its bytes, and whether it refuses to be rewritten or
    unlinked (an immutable attribute, a lock held by another program). *)
Record file : Type := File { content : list byte; immutable : bool }.

(** A case directory: the regular files it holds, in the order
    [os.listdir] reports them.  The order is the file system's choice;
    nothing is assumed about it. *)
Abbreviation directory := (list (string * file)).

(** The disk maps the path of a case directory, as the handler spells
    it, to its entries; [draws] counts the identifiers [uuid.uuid4] has
    returned so far.  The disks described are those the service keeps:
    under the upload folder, the path of a case is free or is a
    directory, and a case directory holds regular files only.  Parent
    directories, other spellings of one directory, a regular file where
    a case directory should be, and directories inside a case directory
    are not described. *)
Record world : Type := World { disk : gmap string directory; draws : nat }.

Definition set_disk (d : gmap string directory) (w : world) : world :=
  {| disk := d; draws := draws w |}.

Fixpoint dir_lookup (name : string) (es : directory) : option file :=
  match es with
  | [] => None
  | (n, f) :: rest => if String.eqb n name then Some f else dir_lookup name rest
  end.

(** Writes [f] under [name]: in place when the name exists, else as a
    new entry.  Where a new entry shows in the listing is up to the file
    system; here it is listed last. *)
Fixpoint dir_write (name : string) (f : file) (es : directory) : directory :=
  match es with
  | [] => [(name, f)]
  | (n, g) :: rest =>
      if String.eqb n name then (n, f) :: rest else (n, g) :: dir_write name f rest
  end.

(** Drops the entry called [name] (names do not repeat in a directory,
    so there is at most one). *)
Fixpoint dir_remove (name : string) (es : directory) : directory :=
  match es with
  | [] => []
  | (n, g) :: rest =>
      if String.eqb n name then dir_remove name rest
      else (n, g) :: dir_remove name rest
  end.

(** The file at a path, if any. *)
Definition file_at (p : path) (w : world) : option file :=
  es ← disk w !! p.1; dir_lookup p.2 es.

(** ** Computations that read and change the world and may raise *)

Definition io (A : Type) : Type := world → outcome A * world.

Definition io_raise {A} (e : exn) : io A := λ w, (Raise e, w).

#[global] Instance io_ret : MRet io := λ A a w, (Return a, w).

#[global] Instance io_bind : MBind io := λ A B k m w,
  match m w with
  | (Return a, w') => k a w'
  | (Raise e, w') => (Raise e, w')
  end.

(** [try: m  except Exception as e: h(e)]. *)
Definition try_except {A} (m : io A) (h : exn → io A) : io A :=
  λ w, match m w with
       | (Return a, w') => (Return a, w')
       | (Raise e, w') => h e w'
       end.

(** An expression that may raise, run in the world. *)
Definition lift {A} (o : outcome A) : io A := λ w, (o, w).

(** [xs[i]]. *)
Definition index {A} (xs : list A) (i : nat) : outcome A :=
  match xs !! i with
  | Some x => Return x
  | None => Raise IndexError
  end.

(** ** Operating-system calls *)

(** The calls the handler makes, on the disks described above.  On
    those each call answers as the real one does.  They do not describe
    the real calls elsewhere: [os.makedirs] also creates missing parents
    and raises on a path the system refuses or that a regular file
    occupies, [os.listdir] also lists directories and raises
    [NotADirectoryError] on a regular file, and [os.path.getsize] and
    [open] answer for a directory with a size and with
    [IsADirectoryError]. *)

Module Os.

(** [s.endswith(c)] for a one-character [c]. *)
Definition ends_with (c : ascii) (s : string) : bool :=
  match String.rev s with
  | String a _ => Ascii.eqb a c
  | EmptyString => false
  end.

(** [posixpath.join(a, p)]. *)
Definition path_join (a p : string) : string :=
  if Str.startswith p "/" then p
  else if String.eqb a "" || ends_with "/" a then a +:+ p
  else a +:+ "/" +:+ p.

(** [os.makedirs(d, exist_ok=True)] where the path is free or a
    directory: the directory is created empty unless it is there
    already. *)
Definition makedirs (d : string) : io unit := λ w,
  match disk w !! d with
  | Some _ => (Return tt, w)
  | None => (Return tt, set_disk (<[d := []]> (disk w)) w)
  end.

(** [os.path.exists] on the path of a directory. *)
Definition dir_exists (d : string) : io bool := λ w,
  (Return (bool_decide (is_Some (disk w !! d))), w).

(** [os.path.exists] (and [os.path.isfile]) on the path of a file. *)
Definition path_exists (p : path) : io bool := λ w,
  (Return (bool_decide (is_Some (file_at p w))), w).

(** [os.listdir(d)] on a missing path or a directory of regular
    files. *)
Definition listdir (d : string) : io (list string) := λ w,
  match disk w !! d with
  | Some es => (Return es.*1, w)
  | None => (Raise (FileNotFoundError (d, "")), w)
  end.

(** [os.path.getsize(p)] for [p] in a case directory: the size of the
    regular file there, [FileNotFoundError] when there is none. *)
Definition getsize (p : path) : io N := λ w,
  match file_at p w with
  | Some f => (Return (N.of_nat (length (content f))), w)
  | None => (Raise (FileNotFoundError p), w)
  end.

(** Replaces the bytes of the file at [p], creating it when missing. *)
Definition put (p : path) (data : list byte) (w : world) : world :=
  match disk w !! p.1 with
  | Some es => set_disk (<[p.1 := dir_write p.2 (File data false) es]> (disk w)) w
  | None => w
  end.

(** [open(p, "wb")]: the file is created, or truncated when it exists.
    It raises when the directory is missing or the file is immutable. *)
Definition open_wb (p : path) : io unit := λ w,
  match disk w !! p.1 with
  | None => (Raise (FileNotFoundError p), w)
  | Some es =>
      match dir_lookup p.2 es with
      | Some f =>
          if immutable f then (Raise (PermissionError p), w)
          else (Return tt, put p [] w)
      | None => (Return tt, put p [] w)
      end
  end.

(** [open(p, "rb")] for [p] in a case directory: the bytes still to be
    read. *)
Definition open_rb (p : path) : io (list byte) := λ w,
  match file_at p w with
  | Some f => (Return (content f), w)
  | None => (Raise (FileNotFoundError p), w)
  end.

(** [os.remove(p)]. *)
Definition remove (p : path) : io unit := λ w,
  match disk w !! p.1 with
  | None => (Raise (FileNotFoundError p), w)
  | Some es =>
      match dir_lookup p.2 es with
      | None => (Raise (FileNotFoundError p), w)
      | Some f =>
          if immutable f then (Raise (PermissionError p), w)
          else (Return tt, set_disk (<[p.1 := dir_remove p.2 es]> (disk w)) w)
      end
  end.

End Os.

(** ** The upload object ([werkzeug.datastructures.FileStorage]) *)

(** [stream] holds the bytes the stream yields from its position;
    [fault = Some (n, msg)] is a stream or a disk that fails while the
    upload is copied, after [n] bytes reached the destination, with an
    [OSError] whose text is [msg]. *)
Record FileStorage : Type := {
  filename : string;
  stream : list byte;
  fault : option (nat * string)
}.

(** [bool(file)] for [file] either [None] or a [FileStorage], whose
    [__bool__] is [bool(self.filename)] (an upload without a name counts
    as one with the empty name). *)
Definition truthy (file : option FileStorage) : bool :=
  match file with
  | None => false
  | Some f => negb (String.eqb (filename f) "")
  end.

(** [FileStorage.save(dst)]: opens [dst] for writing and copies the
    stream into it; the destination keeps what was copied when the copy
    raises. *)
Definition FileStorage_save (f : FileStorage) (dst : path) : io unit :=
  Os.open_wb dst;;
  match fault f return io unit with
  | None => λ w, (Return tt, Os.put dst (stream f) w)
  | Some (n, msg) => λ w, (Raise (OSError msg), Os.put dst (take n (stream f)) w)
  end.

(** ** The hash accumulator ([hashlib.sha256()]) *)

(** [update] calls are equivalent to one call on the concatenation of
    their arguments, so the accumulator is the bytes absorbed so far. *)
Definition hasher : Type := list byte.

Definition sha256_new : hasher := [].

Definition sha256_update (h : hasher) (block : list byte) : hasher := h ++ block.

(** [for byte_block in iter(lambda: f.read(4096), b""):
       sha256_hash.update(byte_block)]
    on the bytes [rest] the handle has not read yet. *)
Equations? hash_blocks (rest : list byte) (h : hasher) : hasher
  by wf (length rest) lt :=
  hash_blocks rest h with inspect (take 4096 rest) := {
    | exist _ nil _ => h
    | exist _ (cons b bs) Hread =>
        hash_blocks (drop 4096 rest) (sha256_update h (cons b bs)) }.
Proof.
  destruct rest as [|x rest]; [done|].
  rewrite length_drop. simpl. lia.
Qed.

(** ** Results and error messages *)

(** The dict a handler call returns: ['success': True] with its data,
    or ['success': False] with an ['error'] text. *)
Inductive reply (A : Type) : Type :=
| Success (a : A)
| Failure (error : string).
Arguments Success {A} a.
Arguments Failure {A} error.

Record metadata : Type := {
  document_id : string;
  original_filename : string;
  stored_filename : string;
  file_path : path;
  file_size : N;
  file_hash : string;
  file_type : string;
  mime_type : option string;
  case_id : string;
  uploaded_by : string;
  ocr_status : string;
  tags : list string;
  version : N
}.
(* ['file_size_mb'] (a rounded float) and ['uploaded_at'] (the wall
   clock) are left out of the record. *)

(** The entry [list_uploaded_files] reports for a file (without its
    modification time). *)
Record listing : Type := {
  l_filename : string;
  l_path : path;
  l_size : N
}.

(** [str(a / b)] for integers where [b] divides [a]: the quotient as a
    float with one zero decimal (below 10^16). *)
Definition str_of_exact_quotient (a b : N) : string :=
  NilEmpty.string_of_uint (N.to_uint (a / b)) +:+ ".0".

(** The error texts, under the names the specification gives the
    errors. *)
Definition NoFile : string := "No file provided".

Definition UnsupportedType : string :=
  "File type not allowed. Allowed types: "
  +:+ Str.join ", " (dict_keys ALLOWED_EXTENSIONS).

Definition WriteFailure (cause : string) : string :=
  "Failed to save file: " +:+ cause.

Definition FileTooLarge : string :=
  "File too large. Maximum size: "
  +:+ str_of_exact_quotient MAX_FILE_SIZE (1024 * 1024) +:+ "MB".

Definition NotFound : string := "File not found".

Definition DeleteFailure (cause : string) : string :=
  "Failed to delete file: " +:+ cause.

(** ** The handler *)

Section Handler.

Variable P : Platform.

Definition secure_filename (name : string) : string :=
  Werkzeug.secure_filename_ascii (nfkd_ascii P name).

(** [str(uuid.uuid4())]. *)
Definition uuid_uuid4 : io string := λ w,
  (Return (uuid4 P (draws w)), {| disk := disk w; draws := S (draws w) |}).

Definition get_file_hash (file_path : path) : io string :=
  let sha256_hash := sha256_new in
  f ← Os.open_rb file_path;
  mret (sha256_hexdigest P (hash_blocks f sha256_hash)).

Definition get_file_size (file_path : path) : io N :=
  Os.getsize file_path.

(** [a or b] on values that are [None] or a string. *)
Definition py_or (a b : option string) : option string :=
  match a with
  | Some t => if String.eqb t "" then b else Some t
  | None => b
  end.

Definition save_uploaded_file (file : option FileStorage)
    (case_id uploaded_by : string) : io (reply metadata) :=
  match file with
  | None => mret (Failure NoFile)
  | Some f =>
      if negb (truthy file) then mret (Failure NoFile)
      else if negb (allowed_file (filename f)) then mret (Failure UnsupportedType)
      else
        (* Generate unique filename *)
        let original_filename := secure_filename (filename f) in
        ext ← lift (index (Str.rsplit1 "." original_filename) 1);
        let file_ext := Str.lower ext in
        unique_id ← uuid_uuid4;
        let stored_filename := unique_id +:+ "." +:+ file_ext in
        (* Create case-specific directory *)
        let case_upload_dir := Os.path_join (UPLOAD_FOLDER P) case_id in
        Os.makedirs case_upload_dir;;
        let file_path := (case_upload_dir, stored_filename) in
        (* Save file *)
        caught ← try_except (FileStorage_save f file_path;; mret None)
                            (λ e, mret (Some e));
        match caught with
        | Some e => mret (Failure (WriteFailure (exn_str P e)))
        | None =>
            (* Get file info *)
            file_size ← get_file_size file_path;
            file_hash ← get_file_hash file_path;
            (* Check file size *)
            if (MAX_FILE_SIZE <? file_size)%N then
              Os.remove file_path;;
              mret (Failure FileTooLarge)
            else
              (* Detect MIME type *)
              let mime_type :=
                py_or (guess_type P original_filename)
                      (dict_get file_ext ALLOWED_EXTENSIONS) in
              mret (Success
                {| document_id := unique_id;
                   original_filename := original_filename;
                   stored_filename := stored_filename;
                   file_path := file_path;
                   file_size := file_size;
                   file_hash := file_hash;
                   file_type := file_ext;
                   mime_type := mime_type;
                   case_id := case_id;
                   uploaded_by := uploaded_by;
                   ocr_status := "pending";
                   tags := [];
                   version := 1 |})
        end
  end.

(** The loop of [get_file_path]: the first name, in listing order, that
    starts with [document_id]. *)
Fixpoint first_startswith (document_id : string) (names : list string)
    : option string :=
  match names with
  | [] => None
  | filename :: rest =>
      if Str.startswith filename document_id then Some filename
      else first_startswith document_id rest
  end.

Definition get_file_path (document_id case_id : string) : io (option path) :=
  let case_upload_dir := Os.path_join (UPLOAD_FOLDER P) case_id in
  (* Search for file with this document ID *)
  there ← Os.dir_exists case_upload_dir;
  if there : bool then
    names ← Os.listdir case_upload_dir;
    mret ((λ filename, (case_upload_dir, filename))
            <$> first_startswith document_id names)
  else mret None.

Definition delete_file (document_id case_id : string) : io (reply string) :=
  file_path ← get_file_path document_id case_id;
  match file_path with
  | Some p =>
      there ← Os.path_exists p;
      if there : bool then
        try_except (Os.remove p;; mret (Success "File deleted"))
                   (λ e, mret (Failure (DeleteFailure (exn_str P e))))
      else mret (Failure NotFound)
  | None => mret (Failure NotFound)
  end.

(** The loop of [list_uploaded_files], with [files] the list built so
    far. *)
Fixpoint list_loop (case_upload_dir : string) (names : list string)
    (files : list listing) : io (list listing) :=
  match names with
  | [] => mret files
  | filename :: rest =>
      let file_path := (case_upload_dir, filename) in
      isfile ← Os.path_exists file_path;
      if isfile : bool then
        size ← get_file_size file_path;
        list_loop case_upload_dir rest
          (files ++ [ {| l_filename := filename; l_path := file_path; l_size := size |} ])
      else list_loop case_upload_dir rest files
  end.

Definition list_uploaded_files (case_id : string) : io (list listing) :=
  let case_upload_dir := Os.path_join (UPLOAD_FOLDER P) case_id in
  there ← Os.dir_exists case_upload_dir;
  if negb there then mret []
  else
    names ← Os.listdir case_upload_dir;
    list_loop case_upload_dir names [].

End Handler.

(** ** A platform to run the handler on *)

(** SHA-256 (FIPS 180-4) on byte lists, with 32-bit words as [N]. *)
Module Sha256.

Local Open Scope N_scope.

Definition wrap (x : N) : N := x mod 2 ^ 32.

Definition rotr (n x : N) : N :=
  N.lor (N.shiftr x n) (wrap (N.shiftl x (32 - n))).

Definition xor3 (a b c : N) : N := N.lxor (N.lxor a b) c.

Definition Ch (x y z : N) : N :=
  N.lxor (N.land x y) (N.land (N.lxor x 4294967295) z).

Definition Maj (x y z : N) : N :=
  xor3 (N.land x y) (N.land x z) (N.land y z).

Definition Sigma0 (x : N) : N := xor3 (rotr 2 x) (rotr 13 x) (rotr 22 x).
Definition Sigma1 (x : N) : N := xor3 (rotr 6 x) (rotr 11 x) (rotr 25 x).
Definition sigma0 (x : N) : N := xor3 (rotr 7 x) (rotr 18 x) (N.shiftr x 3).
Definition sigma1 (x : N) : N := xor3 (rotr 17 x) (rotr 19 x) (N.shiftr x 10).

(** The round constants are not tabulated: they are the first 32 bits
    of the fractional parts of the cube roots of the first 64 primes,
    and the initial hash value takes the square roots of the first 8. *)
Definition is_prime (n : N) : bool :=
  (1 <? n) && forallb (λ d, negb (n mod d =? 0)) (N.of_nat <$> seq 2 (N.to_nat n - 2)).

Definition primes (count : nat) : list N :=
  take count (filter (λ n, is_prime n = true) (N.of_nat <$> seq 2 310)).

(** The integer cube root, one bit at a time from bit [bits - 1] down. *)
Fixpoint cube_root (bits : nat) (acc n : N) : N :=
  match bits with
  | O => acc
  | S b =>
      let x := acc + 2 ^ N.of_nat b in
      cube_root b (if x * x * x <=? n then x else acc) n
  end.

Definition K : list N :=
  Eval vm_compute in
    (λ p, wrap (cube_root 36 0 (p * 2 ^ 96))) <$> primes 64.

Definition H0 : list N :=
  Eval vm_compute in (λ p, wrap (N.sqrt (p * 2 ^ 64))) <$> primes 8.

(** The big-endian bytes of [x], [n] of them. *)
Fixpoint be_bytes (n : nat) (x : N) : list N :=
  match n with
  | O => []
  | S n' => be_bytes n' (x / 256) ++ [x mod 256]
  end.

(** The message, a one bit, zeros up to 56 modulo 64 bytes, and the bit
    length on eight bytes. *)
Definition pad (msg : list N) : list N :=
  let len := N.of_nat (length msg) in
  let zeros := (55 + 64 - len mod 64) mod 64 in
  msg ++ [128] ++ repeat 0 (N.to_nat zeros) ++ be_bytes 8 (8 * len).

Fixpoint be_words (bs : list N) : list N :=
  match bs with
  | a :: b :: c :: d :: rest =>
      (((a * 256 + b) * 256 + c) * 256 + d) :: be_words rest
  | _ => []
  end.

(** The message schedule, latest word first: [rw] holds W(t-1), W(t-2),
    ... and grows by [n] words. *)
Fixpoint schedule (n : nat) (rw : list N) : list N :=
  match n with
  | O => rw
  | S n' =>
      let at_ i := nth i rw 0 in
      schedule n'
        (wrap (sigma1 (at_ 1%nat) + at_ 6%nat + sigma0 (at_ 14%nat) + at_ 15%nat) :: rw)
  end.

Definition round (s : list N) (kw : N * N) : list N :=
  match s with
  | [a; b; c; d; e; f; g; h] =>
      let t1 := h + Sigma1 e + Ch e f g + kw.1 + kw.2 in
      let t2 := Sigma0 a + Maj a b c in
      [wrap (t1 + t2); a; b; c; wrap (d + t1); e; f; g]
  | _ => s
  end.

Definition compress (hs block : list N) : list N :=
  let w := rev (schedule 48 (rev (be_words block))) in
  let s := fold_left round (zip K w) hs in
  zip_with (λ x y, wrap (x + y)) hs s.

Fixpoint blocks (n : nat) (hs bs : list N) : list N :=
  match n with
  | O => hs
  | S n' => blocks n' (compress hs (take 64 bs)) (drop 64 bs)
  end.

Definition hex_digit (d : N) : ascii :=
  ascii_of_N (if d <? 10 then 48 + d else 87 + d).

Definition hex_byte (b : N) : string :=
  String (hex_digit (b / 16)) (String (hex_digit (b mod 16)) EmptyString).

Definition hexdigest (data : list byte) : string :=
  let bs := pad (Byte.to_N <$> data) in
  let hs := blocks (length bs / 64) H0 bs in
  String.concat "" (hex_byte <$> (hs ≫= be_bytes 4)).

End Sha256.

Module Posix.

(** Keeps the ASCII characters.  It agrees with NFKD normalisation
    followed by ASCII encoding on every ASCII string, which
    normalisation leaves alone; on other strings it does not (the real
    one turns an accented letter into its base letter).  It serves the
    sample uploads, whose names are ASCII. *)
Fixpoint ascii_only (s : string) : string :=
  match s with
  | EmptyString => EmptyString
  | String c r =>
      if (N_of_ascii c <? 128)%N then String c (ascii_only r) else ascii_only r
  end.

(** The type registered for the extension of [name], on a system whose
    registry holds the seven types of [ALLOWED_EXTENSIONS]. *)
Definition guess (name : string) : option string :=
  match Str.rcut "." name with
  | Some (_, ext) => dict_get (Str.lower ext) ALLOWED_EXTENSIONS
  | None => None
  end.

(** A generator that counts: the n-th identifier is the version-4 form
    of [n]. *)
Definition nth_uuid (n : nat) : string :=
  "00000000-0000-4000-8000-"
  +:+ String.concat "" (Sha256.hex_byte <$> Sha256.be_bytes 6 (N.of_nat n)).

Definition show_path (p : path) : string :=
  "'" +:+ Os.path_join p.1 p.2 +:+ "'".

Definition str (e : exn) : string :=
  match e with
  | IndexError => "list index out of range"
  | FileNotFoundError p => "[Errno 2] No such file or directory: " +:+ show_path p
  | PermissionError p => "[Errno 1] Operation not permitted: " +:+ show_path p
  | OSError msg => msg
  end.

Definition platform : Platform := {|
  UPLOAD_FOLDER := "/srv/sam-law/uploads";
  nfkd_ascii := ascii_only;
  guess_type := guess;
  sha256_hexdigest := Sha256.hexdigest;
  uuid4 := nth_uuid;
  exn_str := str
|}.

(** A disk with no case directory yet. *)
Definition fresh : world := {| disk := ∅; draws := 0 |}.

Definition bytes_of (s : string) : list byte := list_byte_of_string s.

(** An upload that arrives whole. *)
Definition upload (name : string) (data : list byte) : FileStorage :=
  {| filename := name; stream := data; fault := None |}.

End Posix.

(** ** The runs of [save_uploaded_file] *)

(** The directory of a case. *)
Definition case_dir (P : Platform) (case_id : string) : string :=
  Os.path_join (UPLOAD_FOLDER P) case_id.

(** The entries of a directory, none when it does not exist. *)
Definition entries (d : string) (w : world) : directory :=
  default [] (disk w !! d).

(** The world once an identifier has been drawn and directory [d] holds
    the entries [es]. *)
Definition with_entries (d : string) (es : directory) (w : world) : world :=
  {| disk := <[d := es]> (disk w); draws := S (draws w) |}.

(** No entry of this name refuses to be rewritten. *)
Definition writable (name : string) (es : directory) : Prop :=
  ∀ g, dir_lookup name es = Some g → immutable g = false.

(** The upload passes both checks, and its sanitised name ends in
    [stem.ext]. *)
Definition accepted (P : Platform) (f : FileStorage) (stem ext : string) : Prop :=
  filename f ≠ ""
  ∧ allowed_file (filename f) = true
  ∧ Str.rcut "." (secure_filename P (filename f)) = Some (stem, ext).

(** The name a run stores the upload under. *)
Definition stored_name (P : Platform) (w : world) (ext : string) : string :=
  uuid4 P (draws w) +:+ "." +:+ Str.lower ext.

(** What a call of [save_uploaded_file] in world [w] can do: each rule
    is one path through the function, with the result and the world it
    leaves. *)
Inductive ingest_run (P : Platform) (case_id uploaded_by : string) (w : world)
  : option FileStorage → outcome (reply metadata) * world → Prop :=
| run_no_file file :
    truthy file = false →
    ingest_run P case_id uploaded_by w file (Return (Failure NoFile), w)
| run_unsupported f :
    filename f ≠ "" →
    allowed_file (filename f) = false →
    ingest_run P case_id uploaded_by w (Some f) (Return (Failure UnsupportedType), w)
| run_no_extension f :
    filename f ≠ "" →
    allowed_file (filename f) = true →
    Str.rcut "." (secure_filename P (filename f)) = None →
    ingest_run P case_id uploaded_by w (Some f) (Raise IndexError, w)
| run_refused f stem ext g :
    let d := case_dir P case_id in
    let name := stored_name P w ext in
    accepted P f stem ext →
    dir_lookup name (entries d w) = Some g →
    immutable g = true →
    ingest_run P case_id uploaded_by w (Some f)
      (Return (Failure (WriteFailure (exn_str P (PermissionError (d, name))))),
       with_entries d (entries d w) w)
| run_copy_failed f stem ext n msg :
    let d := case_dir P case_id in
    let name := stored_name P w ext in
    accepted P f stem ext →
    writable name (entries d w) →
    fault f = Some (n, msg) →
    ingest_run P case_id uploaded_by w (Some f)
      (Return (Failure (WriteFailure (exn_str P (OSError msg)))),
       with_entries d (dir_write name (File (take n (stream f)) false) (entries d w)) w)
| run_too_large f stem ext :
    let d := case_dir P case_id in
    let name := stored_name P w ext in
    accepted P f stem ext →
    writable name (entries d w) →
    fault f = None →
    (MAX_FILE_SIZE < N.of_nat (length (stream f)))%N →
    ingest_run P case_id uploaded_by w (Some f)
      (Return (Failure FileTooLarge),
       with_entries d (dir_remove name (entries d w)) w)
| run_stored f stem ext :
    let d := case_dir P case_id in
    let name := stored_name P w ext in
    let original := secure_filename P (filename f) in
    accepted P f stem ext →
    writable name (entries d w) →
    fault f = None →
    (N.of_nat (length (stream f)) ≤ MAX_FILE_SIZE)%N →
    ingest_run P case_id uploaded_by w (Some f)
      (Return (Success
         {| document_id := uuid4 P (draws w);
            original_filename := original;
            stored_filename := name;
            file_path := (d, name);
            file_size := N.of_nat (length (stream f));
            file_hash := sha256_hexdigest P (stream f);
            file_type := Str.lower ext;
            mime_type := py_or (guess_type P original)
                               (dict_get (Str.lower ext) ALLOWED_EXTENSIONS);
            case_id := case_id;
            uploaded_by := uploaded_by;
            ocr_status := "pending";
            tags := [];
            version := 1 |}),
       with_entries d (dir_write name (File (stream f) false) (entries d w)) w).

(** ** Sample uploads and worlds *)

Module Sample.

Import Posix.

Definition case : string := "SAML-00001".
Definition user : string := "Chris Hallberg".

(** The directory of the sample case on the sample platform. *)
Definition dir : string := "/srv/sam-law/uploads/SAML-00001".

(** Ten bytes of notes. *)
Definition notes : FileStorage := upload "notes.txt" (bytes_of "0123456789").

Definition notes_name : string := "00000000-0000-4000-8000-000000000000.txt".

Definition notes_metadata : metadata := {|
  document_id := "00000000-0000-4000-8000-000000000000";
  original_filename := "notes.txt";
  stored_filename := notes_name;
  file_path := (dir, notes_name);
  file_size := 10;
  file_hash := "84d89877f0d4041efb6bf91a16f0248f2fd573e6af05c19f96bedb9f882f7882";
  file_type := "txt";
  mime_type := Some "text/plain";
  case_id := case;
  uploaded_by := user;
  ocr_status := "pending";
  tags := [];
  version := 1
|}.

(** A scan of sixty mebibytes. *)
Definition scan : FileStorage :=
  upload "scan.pdf" (repeat "000"%byte (N.to_nat 62914560)).

(** The disk once the notes are stored. *)
Definition after_notes : world := {|
  disk := {[ dir := [(notes_name, File (bytes_of "0123456789") false)] ]};
  draws := 1
|}.

(** The second identifier the sample generator draws. *)
Definition second_name : string := "00000000-0000-4000-8000-000000000001.txt".

Definition second_metadata : metadata := {|
  document_id := "00000000-0000-4000-8000-000000000001";
  original_filename := "notes.txt";
  stored_filename := second_name;
  file_path := (dir, second_name);
  file_size := 10;
  file_hash := "84d89877f0d4041efb6bf91a16f0248f2fd573e6af05c19f96bedb9f882f7882";
  file_type := "txt";
  mime_type := Some "text/plain";
  case_id := case;
  uploaded_by := user;
  ocr_status := "pending";
  tags := [];
  version := 1
|}.

(** The disk once the same notes are stored a second time. *)
Definition after_notes_twice : world := {|
  disk := {[ dir := [(notes_name, File (bytes_of "0123456789") false);
                     (second_name, File (bytes_of "0123456789") false)] ]};
  draws := 2
|}.

(** The notes again, on a disk that runs full after four bytes. *)
Definition cut_short : FileStorage := {|
  filename := "notes.txt";
  stream := bytes_of "0123456789";
  fault := Some (4%nat, "[Errno 28] No space left on device")
|}.

(** The disk the interrupted upload leaves. *)
Definition after_cut_short : world := {|
  disk := {[ dir := [(notes_name, File (bytes_of "0123") false)] ]};
  draws := 1
|}.

(** The disk of [after_notes] before a generator that starts over, and
    so draws the identifier of the stored notes again. *)
Definition replayed : world := {| disk := disk after_notes; draws := 0 |}.

(** Other notes under the same name, three bytes long. *)
Definition other_notes : FileStorage := upload "notes.txt" (bytes_of "abc").

(** The start the two stored identifiers share. *)
Definition shared_prefix : string := "00000000-0000-4000-8000-00000000000".

(** The disk of [after_notes_twice] with its first file deleted. *)
Definition after_delete : world := {|
  disk := {[ dir := [(second_name, File (bytes_of "0123456789") false)] ]};
  draws := 2
|}.

End Sample.

(** ** Normalisation that works character by character *)

(** Every character of [s] passes [p]. *)
Fixpoint string_all (p : ascii → bool) (s : string) : bool :=
  match s with
  | EmptyString => true
  | String c r => p c && string_all p r
  end.

Definition is_ascii (c : ascii) : bool := (N_of_ascii c <? 128)%N.

(** The letters A-Z and a-z. *)
Definition is_letter (c : ascii) : bool :=
  let n := N_of_ascii c in
  (((65 <=? n) && (n <=? 90)) || ((97 <=? n) && (n <=? 122)))%N.

(** What NFKD followed by dropping the non-ASCII characters does on any
    system: the ASCII form of a text is the ASCII forms of its pieces
    put together (decomposition is per character, and reordering moves
    combining marks only, which are dropped), and an ASCII text is its
    own ASCII form. *)
Definition nfkd_faithful (P : Platform) : Prop :=
  (∀ a b, nfkd_ascii P (a +:+ b) = nfkd_ascii P a +:+ nfkd_ascii P b)
  ∧ (∀ s, string_all is_ascii s = true → nfkd_ascii P s = s).

(** ** Texts that differ in the case of their letters only *)

Definition is_small_letter (c : ascii) : bool :=
  let n := N_of_ascii c in ((97 <=? n) && (n <=? 122))%N.

(** The capital of a small letter: 32 code points below it. *)
Definition capital (c : ascii) : ascii := ascii_of_N (N_of_ascii c - 32).

(** [same_ignoring_case s t]: [s] and [t] have the same length and, place
    by place, the same character or a small letter and its capital.
    Nothing here refers to [Str.lower]. *)
Inductive same_ignoring_case : string → string → Prop :=
| sic_nil : same_ignoring_case "" ""
| sic_same c s t :
    same_ignoring_case s t → same_ignoring_case (String c s) (String c t)
| sic_capital c s t :
    is_small_letter c = true →
    same_ignoring_case s t → same_ignoring_case (String (capital c) s) (String c t)
| sic_small c s t :
    is_small_letter c = true →
    same_ignoring_case s t → same_ignoring_case (String c s) (String (capital c) t).

(** ** A generator that repeats itself *)

Module Stuck.

(** The sample platform with a generator that hands out one identifier
    over and over. *)
Definition platform : Platform := {|
  UPLOAD_FOLDER := UPLOAD_FOLDER Posix.platform;
  nfkd_ascii := nfkd_ascii Posix.platform;
  guess_type := guess_type Posix.platform;
  sha256_hexdigest := sha256_hexdigest Posix.platform;
  uuid4 := λ _, Posix.nth_uuid 0;
  exn_str := exn_str Posix.platform
|}.


End Stuck.

(** * Properties *)

(** ** Facts about the string operations *)

Section StrFacts.

Lemma rcut_none sep s : Str.rcut sep s = None ↔ Str.contains sep s = false.
Proof.
  induction s as [|a r IH]; simpl; [done|].
  destruct (Str.rcut sep r) as [[h t]|].
  - destruct (Ascii.eqb a sep); split; try done.
    intros Hc. apply IH in Hc. done.
  - destruct (Ascii.eqb a sep); [done|]. by rewrite <- IH.
Qed.

Lemma rcut_some sep s h t :
  Str.rcut sep s = Some (h, t) ↔
  s = h +:+ String sep t ∧ Str.contains sep t = false.
Proof.
  revert h. induction s as [|a r IH]; intros h; simpl.
  - split; [done|]. intros [E _]. destruct h; discriminate.
  - destruct (Str.rcut sep r) as [[h' t']|] eqn:Hr.
    + split.
      * intros [= <- ->]. destruct (proj1 (IH h') eq_refl) as [-> Hc].
        done.
      * intros [E Hc]. destruct h as [|b h]; simpl in E.
        -- injection E as -> ->.
           apply rcut_none in Hc. congruence.
        -- injection E as -> E.
           assert (Some (h', t') = Some (h, t)) as [= -> ->]; [|done].
           apply IH. done.
    + apply rcut_none in Hr. split.
      * destruct (Ascii.eqb a sep) eqn:Ea; [|done].
        apply Ascii.eqb_eq in Ea as ->. intros [= <- <-]. done.
      * intros [E Hc]. destruct h as [|b h]; simpl in E.
        -- injection E as -> ->. by rewrite Ascii.eqb_refl.
        -- injection E as -> ->. exfalso. clear -Hr.
           induction h as [|c h IH]; simpl in Hr.
           ++ by rewrite Ascii.eqb_refl in Hr.
           ++ destruct (Ascii.eqb c sep); [done|auto].
  Qed.

Lemma rsplit1_dot_index sep s :
  Str.contains sep s = true → is_Some (Str.rsplit1 sep s !! 1%nat).
Proof.
  intros Hc. unfold Str.rsplit1.
  destruct (Str.rcut sep s) as [[h t]|] eqn:Hr; [by eexists|].
  apply rcut_none in Hr. congruence.
Qed.

End StrFacts.

(** [allowed_file] by cases on the last dot of the name. *)
Lemma allowed_file_cases (filename : string) :
  (Str.contains "." filename = false ∧ allowed_file filename = false)
  ∨ ∃ stem ext, Str.rcut "." filename = Some (stem, ext)
                ∧ allowed_file filename = dict_mem (Str.lower ext) ALLOWED_EXTENSIONS.
Proof.
  unfold allowed_file, Str.rsplit1.
  destruct (Str.rcut "." filename) as [[h t]|] eqn:Hr.
  - right. exists h, t. split; [done|].
    assert (Str.contains "." filename = true) as ->; [|done].
    destruct (Str.contains "." filename) eqn:Hc; [done|].
    apply rcut_none in Hc. congruence.
  - left. apply rcut_none in Hr. by rewrite Hr.
Qed.

Lemma dict_mem_allow_list (ext : string) :
  dict_mem (Str.lower ext) ALLOWED_EXTENSIONS = true ↔
  ∃ a, a ∈ allow_list ∧ Str.caseless_eq ext a.
Proof.
  unfold dict_mem, Str.caseless_eq. rewrite bool_decide_eq_true.
  change (dict_keys ALLOWED_EXTENSIONS) with allow_list.
  split.
  - intros Hin. exists (Str.lower ext). split; [done|].
    revert Hin. generalize (Str.lower ext). intros e He.
    unfold allow_list in He. set_unfold.
    destruct He as [->|[->|[->|[->|[->|[->|[->|[]]]]]]]]; reflexivity.
  - intros (a & Ha & ->). unfold allow_list in *. set_unfold.
    destruct Ha as [->|[->|[->|[->|[->|[->|[->|[]]]]]]]]; simpl; tauto.
Qed.

Lemma dotted_name_rcut (stem ext : string) :
  Str.contains "." ext = false →
  Str.rcut "." (stem +:+ "." +:+ ext) = Some (stem, ext).
Proof. intros Hc. by apply rcut_some. Qed.

(** [allowed_file] in terms of the lower-case form of the extension, as
    the code computes it. *)
Lemma allowed_file_iff_allow_listed (filename : string) :
  (allowed_file filename = true ↔
     ∃ stem ext, filename = stem +:+ "." +:+ ext
                 ∧ Str.contains "." ext = false
                 ∧ ∃ a, a ∈ allow_list ∧ Str.caseless_eq ext a)
  ∧ (allowed_file filename = false ↔
     Str.contains "." filename = false
     ∨ ∃ stem ext, filename = stem +:+ "." +:+ ext
                   ∧ Str.contains "." ext = false
                   ∧ ∀ a, a ∈ allow_list → ¬ Str.caseless_eq ext a).
Proof.
  destruct (allowed_file_cases filename) as [[Hc Hf]|(stem & ext & Hr & Hf)].
  - split; split.
    + congruence.
    + intros (s & e & -> & He & _).
      pose proof (dotted_name_rcut s e He) as Hr.
      apply rcut_none in Hc. congruence.
    + by left.
    + done.
  - pose proof Hr as [Hn He]%rcut_some.
    rewrite Hf. split; split.
    + intros Hm%dict_mem_allow_list. by exists stem, ext.
    + intros (s & e & E & Hd & Ha).
      rewrite E, (dotted_name_rcut s e Hd) in Hr. injection Hr as -> ->.
      by apply dict_mem_allow_list.
    + intros Hm. right. exists stem, ext. repeat split; [done..|].
      intros a Ha Hca.
      assert (dict_mem (Str.lower ext) ALLOWED_EXTENSIONS = true); [|congruence].
      apply dict_mem_allow_list. eauto.
    + intros [Hc|(s & e & E & Hd & Ha)].
      * apply rcut_none in Hc. congruence.
      * rewrite E, (dotted_name_rcut s e Hd) in Hr. injection Hr as -> ->.
        destruct (dict_mem (Str.lower ext) ALLOWED_EXTENSIONS) eqn:Hm; [|done].
        apply dict_mem_allow_list in Hm as (a & Ha1 & Ha2). by destruct (Ha a).
Qed.

(** ** Case of the extension *)

Lemma small_letter_lower c : is_small_letter c = true → Str.lower_char c = c.
Proof. destruct c as [[] [] [] [] [] [] [] []]; vm_compute; done. Qed.

Lemma capital_lower c : is_small_letter c = true → Str.lower_char (capital c) = c.
Proof. destruct c as [[] [] [] [] [] [] [] []]; vm_compute; done. Qed.

Lemma capital_not_small c :
  is_small_letter c = true → is_small_letter (capital c) = false.
Proof. destruct c as [[] [] [] [] [] [] [] []]; vm_compute; done. Qed.

Lemma lower_small_cases c :
  is_small_letter (Str.lower_char c) = true →
  c = Str.lower_char c ∨ c = capital (Str.lower_char c).
Proof.
  destruct c as [[] [] [] [] [] [] [] []]; vm_compute; intros; auto; done.
Qed.

(** Against a word of small letters, agreeing up to case is having that
    word as lower-case form. *)
Lemma same_ignoring_case_lower ext a :
  string_all is_small_letter a = true →
  same_ignoring_case ext a ↔ Str.lower ext = a.
Proof.
  intros Ha. split.
  - intros H. induction H as [|c s t _ IH|c s t Hc _ IH|c s t Hc _ IH];
      cbn [string_all] in Ha; cbn [Str.lower].
    + done.
    + apply andb_true_iff in Ha as [Hc Ht].
      by rewrite (small_letter_lower c Hc), (IH Ht).
    + apply andb_true_iff in Ha as [_ Ht].
      by rewrite (capital_lower c Hc), (IH Ht).
    + apply andb_true_iff in Ha as [Hcap _].
      by rewrite (capital_not_small c Hc) in Hcap.
  - revert a Ha. induction ext as [|c s IH]; intros a Ha E; cbn [Str.lower] in E.
    + subst a. constructor.
    + subst a. cbn [string_all] in Ha. apply andb_true_iff in Ha as [Hc Hs].
      specialize (IH _ Hs eq_refl).
      destruct (lower_small_cases c Hc) as [E|E].
      * rewrite <- E. by constructor.
      * rewrite E at 1. by constructor.
Qed.

Lemma allow_list_small a : a ∈ allow_list → string_all is_small_letter a = true.
Proof.
  unfold allow_list. set_unfold.
  intros [->|[->|[->|[->|[->|[->|[->|[]]]]]]]]; reflexivity.
Qed.

Lemma allow_list_lower a : a ∈ allow_list → Str.lower a = a.
Proof.
  unfold allow_list. set_unfold.
  intros [->|[->|[->|[->|[->|[->|[->|[]]]]]]]]; reflexivity.
Qed.

Lemma caseless_allow_list ext a :
  a ∈ allow_list → Str.caseless_eq ext a ↔ same_ignoring_case ext a.
Proof.
  intros Ha. unfold Str.caseless_eq. rewrite (allow_list_lower a Ha).
  symmetry. apply same_ignoring_case_lower. by apply allow_list_small.
Qed.

(** Names in capitals and in mixed case pass, names without an allowed
    extension do not. *)
Example allowed_file_samples :
  allowed_file "REPORT.PDF" = true ∧ allowed_file "photo.JpEg" = true
  ∧ allowed_file "notes.txt" = true ∧ allowed_file "archive.tar.Docx" = true
  ∧ allowed_file "malware.exe" = false ∧ allowed_file "report.pdf.exe" = false
  ∧ allowed_file "README" = false ∧ allowed_file "trailing." = false
  ∧ allowed_file "" = false.
Proof. repeat split; reflexivity. Qed.

(** C2. [allowed_file] accepts exactly the file names that end in a dot
    followed by a dot-free extension which is one of pdf, doc, docx,
    jpg, jpeg, png, txt up to the case of its letters ("PDF", "Pdf" and
    "pdf" alike); a name without a dot, or with any other extension, is
    rejected. *)
Theorem allowed_file_iff_extension_ignoring_case (filename : string) :
  (allowed_file filename = true ↔
     ∃ stem ext, filename = stem +:+ "." +:+ ext
                 ∧ Str.contains "." ext = false
                 ∧ ∃ a, a ∈ allow_list ∧ same_ignoring_case ext a)
  ∧ (allowed_file filename = false ↔
     Str.contains "." filename = false
     ∨ ∃ stem ext, filename = stem +:+ "." +:+ ext
                   ∧ Str.contains "." ext = false
                   ∧ ∀ a, a ∈ allow_list → ¬ same_ignoring_case ext a).
Proof.
  destruct (allowed_file_iff_allow_listed filename) as [Htrue Hfalse].
  split.
  - rewrite Htrue. split.
    + intros (stem & ext & E & Hd & a & Ha & Hc).
      exists stem, ext. split_and!; [done..|]. exists a. split; [done|].
      by apply caseless_allow_list.
    + intros (stem & ext & E & Hd & a & Ha & Hc).
      exists stem, ext. split_and!; [done..|]. exists a. split; [done|].
      by apply caseless_allow_list.
  - rewrite Hfalse. split.
    + intros [Hn|(stem & ext & E & Hd & Hno)]; [by left|right].
      exists stem, ext. split_and!; [done..|].
      intros a Ha Hc. apply (Hno a Ha). by apply caseless_allow_list.
    + intros [Hn|(stem & ext & E & Hd & Hno)]; [by left|right].
      exists stem, ext. split_and!; [done..|].
      intros a Ha Hc. apply (Hno a Ha). by apply caseless_allow_list.
Qed.

(** ** Facts about directories and the disk *)

Section DiskFacts.

Implicit Types (es : directory) (w : world) (p : path).

Lemma dir_lookup_write_eq name f es :
  dir_lookup name (dir_write name f es) = Some f.
Proof.
  induction es as [|[n g] es IH]; simpl.
  - by rewrite String.eqb_refl.
  - destruct (String.eqb n name) eqn:E; simpl; by rewrite E.
Qed.

Lemma dir_lookup_write_ne name name' f es :
  name ≠ name' → dir_lookup name' (dir_write name f es) = dir_lookup name' es.
Proof.
  intros Hne. induction es as [|[n g] es IH]; simpl.
  - destruct (String.eqb name name') eqn:E; [|done].
    by apply String.eqb_eq in E.
  - destruct (String.eqb n name) eqn:E; simpl.
    + apply String.eqb_eq in E. subst n.
      destruct (String.eqb name name') eqn:E'; [|done].
      by apply String.eqb_eq in E'.
    + by rewrite IH.
Qed.

Lemma dir_lookup_remove_eq name es : dir_lookup name (dir_remove name es) = None.
Proof.
  induction es as [|[n g] es IH]; simpl; [done|].
  destruct (String.eqb n name) eqn:E; simpl; [done|]. by rewrite E.
Qed.

Lemma dir_lookup_remove_ne name name' es :
  name ≠ name' → dir_lookup name' (dir_remove name es) = dir_lookup name' es.
Proof.
  intros Hne. induction es as [|[n g] es IH]; simpl; [done|].
  destruct (String.eqb n name) eqn:E; simpl.
  - apply String.eqb_eq in E. subst n.
    destruct (String.eqb name name') eqn:E'; [|done].
    by apply String.eqb_eq in E'.
  - by rewrite IH.
Qed.

Lemma dir_lookup_names name es :
  is_Some (dir_lookup name es) ↔ name ∈ es.*1.
Proof.
  induction es as [|[n g] es IH]; csimpl.
  - split; [by intros [? ?]|]. by intros ?%elem_of_nil.
  - rewrite elem_of_cons. destruct (String.eqb n name) eqn:E.
    + apply String.eqb_eq in E. subst n. split; [by left|by eexists].
    + apply String.eqb_neq in E. rewrite IH. naive_solver.
Qed.

Lemma dir_remove_names name es :
  (dir_remove name es).*1 = filter (λ n, n ≠ name) es.*1.
Proof.
  induction es as [|[n g] es IH]; csimpl; [done|].
  destruct (String.eqb n name) eqn:E.
  - apply String.eqb_eq in E. subst n.
    rewrite filter_cons_False by naive_solver. done.
  - apply String.eqb_neq in E. rewrite filter_cons_True by done.
    csimpl. by rewrite IH.
Qed.

Lemma dir_write_names name f es :
  (dir_write name f es).*1 = if decide (name ∈ es.*1) then es.*1 else es.*1 ++ [name].
Proof.
  induction es as [|[n g] es IH].
  - case_decide as Hin; [by apply elem_of_nil in Hin|done].
  - cbn [dir_write]. destruct (String.eqb n name) eqn:E.
    + apply String.eqb_eq in E. subst n. clear IH.
      rewrite decide_True; [done|]. rewrite fmap_cons. apply elem_of_cons. by left.
    + apply String.eqb_neq in E. rewrite !fmap_cons, IH. cbn [fst].
      repeat case_decide; try done; set_solver.
Qed.

Lemma file_at_put_eq p data w :
  is_Some (disk w !! p.1) →
  file_at p (Os.put p data w) = Some (File data false).
Proof.
  intros [es Hes]. unfold file_at, Os.put. rewrite Hes. simpl.
  rewrite lookup_insert_eq. simpl. apply dir_lookup_write_eq.
Qed.

End DiskFacts.

(** The chunked reads hand the accumulator the whole file, in order. *)
Lemma hash_blocks_all (rest : list byte) (h : hasher) :
  hash_blocks rest h = h ++ rest.
Proof.
  funelim (hash_blocks rest h).
  - destruct rest; [by rewrite app_nil_r|discriminate].
  - match goal with IH : hash_blocks _ _ = _ ++ _ |- _ => rewrite IH end.
    unfold sha256_update. rewrite <- Hread, <- app_assoc. by rewrite take_drop.
Qed.

(** ** Every call is one of the runs *)

Lemma dir_remove_write name f es :
  dir_remove name (dir_write name f es) = dir_remove name es.
Proof.
  induction es as [|[n g] es IH]; simpl.
  - by rewrite String.eqb_refl.
  - destruct (String.eqb n name) eqn:E; simpl; rewrite E; [done|]. by rewrite IH.
Qed.

Lemma prepared_disk d (m : gmap string directory) :
  match m !! d with Some _ => m | None => <[d := []]> m end
  = <[d := default [] (m !! d)]> m.
Proof.
  destruct (m !! d) as [es|] eqn:E; simpl; [|done].
  by rewrite insert_id.
Qed.

Lemma put_disk p data w es :
  disk w !! p.1 = Some es →
  Os.put p data w = set_disk (<[p.1 := dir_write p.2 (File data false) es]> (disk w)) w.
Proof. intros E. unfold Os.put. by rewrite E. Qed.

Lemma dir_write_write name f f' es :
  dir_write name f (dir_write name f' es) = dir_write name f es.
Proof.
  induction es as [|[n g] es IH]; simpl.
  - by rewrite String.eqb_refl.
  - destruct (String.eqb n name) eqn:E; simpl; rewrite E; [done|]. by rewrite IH.
Qed.

Lemma makedirs_run d w :
  Os.makedirs d w = (Return tt, set_disk (<[d := entries d w]> (disk w)) w).
Proof.
  unfold Os.makedirs, entries. destruct (disk w !! d) as [es|] eqn:E; simpl; [|done].
  rewrite insert_id by done. by destruct w.
Qed.

(** The three ways [FileStorage.save] can go in a directory that
    exists. *)
Lemma FileStorage_save_run f p w es :
  disk w !! p.1 = Some es →
  FileStorage_save f p w =
    match dir_lookup p.2 es with
    | Some (File _ true) => (Raise (PermissionError p), w)
    | _ =>
        match fault f with
        | None => (Return tt, Os.put p (stream f) w)
        | Some (n, msg) => (Raise (OSError msg), Os.put p (take n (stream f)) w)
        end
    end.
Proof.
  intros E. unfold FileStorage_save, mbind, io_bind, Os.open_wb. rewrite E.
  assert (∀ data, Os.put p data (Os.put p [] w) = Os.put p data w) as Hput.
  { intros data. rewrite (put_disk p [] w es E).
    unfold Os.put at 1. cbn [disk set_disk]. rewrite lookup_insert_eq.
    rewrite (put_disk p data w es E). unfold set_disk. cbn [disk draws].
    by rewrite insert_insert_eq, dir_write_write. }
  destruct (dir_lookup p.2 es) as [[c [|]]|]; cbn [immutable]; [done|..];
    destruct (fault f) as [[n msg]|]; by rewrite Hput.
Qed.

Lemma get_file_size_run p w g :
  file_at p w = Some g →
  get_file_size p w = (Return (N.of_nat (length (content g))), w).
Proof. intros E. unfold get_file_size, Os.getsize. by rewrite E. Qed.

Lemma get_file_hash_run P p w g :
  file_at p w = Some g →
  get_file_hash P p w = (Return (sha256_hexdigest P (content g)), w).
Proof.
  intros E. unfold get_file_hash, mbind, io_bind, Os.open_rb. rewrite E.
  unfold mret, io_ret. by rewrite hash_blocks_all.
Qed.

Lemma remove_run p w es g :
  disk w !! p.1 = Some es →
  dir_lookup p.2 es = Some g →
  Os.remove p w =
    if immutable g then (Raise (PermissionError p), w)
    else (Return tt, set_disk (<[p.1 := dir_remove p.2 es]> (disk w)) w).
Proof. intros E1 E2. unfold Os.remove. by rewrite E1, E2. Qed.

Lemma save_uploaded_file_runs P file case_id uploaded_by w :
  ingest_run P case_id uploaded_by w file
    (save_uploaded_file P file case_id uploaded_by w).
Proof.
  destruct file as [f|]; [|by constructor].
  unfold save_uploaded_file.
  destruct (truthy (Some f)) eqn:Ht; cbn [negb]; [|by constructor].
  assert (filename f ≠ "") as Hname.
  { simpl in Ht. intros E. by rewrite E in Ht. }
  destruct (allowed_file (filename f)) eqn:Ha; cbn [negb]; [|by constructor].
  unfold Str.rsplit1.
  destruct (Str.rcut "." (secure_filename P (filename f))) as [[stem ext]|] eqn:Hr;
    cbv beta iota zeta delta [mbind io_bind mret io_ret lift index lookup list_lookup
                         uuid_uuid4 try_except]; [|by constructor].
  fold (case_dir P case_id).
  change (uuid4 P (draws w) +:+ "." +:+ Str.lower ext) with (stored_name P w ext).
  set (d := case_dir P case_id). set (name := stored_name P w ext).
  assert (accepted P f stem ext) as Hacc by done.
  rewrite makedirs_run. unfold set_disk; cbn [disk draws].
  change (entries d _) with (entries d w).
  set (w1 := {| disk := <[d := entries d w]> (disk w); draws := S (draws w) |}).
  assert (disk w1 !! (d, name).1 = Some (entries d w)) as Hd
    by apply lookup_insert_eq.
  rewrite (FileStorage_save_run f (d, name) w1 _ Hd). cbn [snd].
  assert (∀ data, Os.put (d, name) data w1
            = with_entries d (dir_write name (File data false) (entries d w)) w)
    as Hput.
  { intros data. rewrite (put_disk _ _ _ _ Hd). unfold set_disk, with_entries.
    cbn [fst snd disk draws w1]. by rewrite insert_insert_eq. }
  destruct (dir_lookup name (entries d w)) as [[c [|]]|] eqn:Hl;
    [by eapply run_refused|..].
  all: assert (writable name (entries d w)) as Hw
         by (intros g Hg; rewrite Hl in Hg;
             first [discriminate Hg | by injection Hg as <-]).
  all: clear Hl; destruct (fault f) as [[n msg]|] eqn:Hf; rewrite Hput;
         cbv beta iota; [by eapply run_copy_failed|].
  all: set (w2 := with_entries d _ w).
  all: assert (disk w2 !! (d, name).1
               = Some (dir_write name (File (stream f) false) (entries d w)))
         as Hd2 by apply lookup_insert_eq.
  all: assert (file_at (d, name) w2 = Some (File (stream f) false)) as Hat
         by (unfold file_at; rewrite Hd2; apply dir_lookup_write_eq).
  all: rewrite (get_file_size_run _ _ _ Hat), (get_file_hash_run _ _ _ _ Hat).
  all: cbn [content].
  all: destruct (MAX_FILE_SIZE <? N.of_nat (length (stream f)))%N eqn:Hsize.
  all: try (apply N.ltb_ge in Hsize; by eapply run_stored).
  all: apply N.ltb_lt in Hsize.
  all: rewrite (remove_run _ _ _ _ Hd2 (dir_lookup_write_eq _ _ _)).
  all: cbn [immutable fst snd]. all: rewrite dir_remove_write.
  all: unfold set_disk, w2, with_entries; cbn [disk draws].
  all: rewrite insert_insert_eq.
  all: by eapply run_too_large.
Qed.

(** ** Ingestion *)

(** The scenario of the ten-byte "notes.txt". *)
Example notes_are_stored :
  save_uploaded_file Posix.platform (Some Sample.notes)
    Sample.case Sample.user Posix.fresh
  = (Return (Success Sample.notes_metadata), Sample.after_notes).
Proof. vm_compute. reflexivity. Qed.

(** Reads a finished call as one of the runs. *)
Ltac run_of H :=
  match type of H with
  | save_uploaded_file ?P ?file ?c ?u ?w = _ =>
      let R := fresh "R" in
      pose proof (save_uploaded_file_runs P file c u w) as R;
      rewrite H in R; clear H; inversion R; subst; clear R
  end.

(** C1. When ingestion succeeds, the size it reports is the number of
    bytes of the input stream and the hash it reports is the SHA-256
    digest of those same bytes, which are the bytes the stored file
    holds. *)
Theorem ingest_reports_size_and_hash (P : Platform) (f : FileStorage)
    (case_id uploaded_by : string) (w w' : world) (m : metadata) :
  save_uploaded_file P (Some f) case_id uploaded_by w = (Return (Success m), w') →
  file_size m = N.of_nat (length (stream f))
  ∧ file_hash m = sha256_hexdigest P (stream f)
  ∧ file_at (file_path m) w' = Some (File (stream f) false).
Proof.
  intros H. run_of H. cbn [file_size file_hash file_path].
  split_and!; [done..|].
  unfold file_at, with_entries. cbn [disk fst snd]. rewrite lookup_insert_eq.
  apply dir_lookup_write_eq.
Qed.

Lemma ingest_reports_size_and_hash_witness :
  file_size Sample.notes_metadata = N.of_nat (length (stream Sample.notes))
  ∧ file_hash Sample.notes_metadata
    = sha256_hexdigest Posix.platform (stream Sample.notes)
  ∧ file_at (file_path Sample.notes_metadata) Sample.after_notes
    = Some (File (stream Sample.notes) false).
Proof.
  apply (ingest_reports_size_and_hash Posix.platform Sample.notes
           Sample.case Sample.user Posix.fresh).
  vm_compute. reflexivity.
Defined.

(** The texts of the two rejections. *)
Lemma rejection_texts :
  NoFile = "No file provided"
  ∧ UnsupportedType
    = "File type not allowed. Allowed types: pdf, doc, docx, jpg, jpeg, png, txt".
Proof. split; reflexivity. Qed.

(** C6. A missing file object (or one that is falsy, its name empty) is
    answered with NoFile before anything else is looked at; a file
    object that passes that first check and whose name [allowed_file]
    rejects is answered with UnsupportedType, whose text lists pdf,
    doc, docx, jpg, jpeg, png, txt. *)
Theorem ingest_rejects_in_order (P : Platform) (file : option FileStorage)
    (case_id uploaded_by : string) (w : world) :
  (file = None →
     save_uploaded_file P file case_id uploaded_by w = (Return (Failure NoFile), w))
  ∧ (truthy file = false →
     save_uploaded_file P file case_id uploaded_by w = (Return (Failure NoFile), w))
  ∧ (∀ f, file = Some f → filename f ≠ "" → allowed_file (filename f) = false →
     save_uploaded_file P file case_id uploaded_by w
     = (Return (Failure UnsupportedType), w))
  ∧ UnsupportedType
    = "File type not allowed. Allowed types: pdf, doc, docx, jpg, jpeg, png, txt".
Proof.
  split_and!.
  - by intros ->.
  - intros Ht. destruct file as [f|]; [|done].
    unfold save_uploaded_file. by rewrite Ht.
  - intros f -> Hname Ha. unfold save_uploaded_file, truthy.
    apply String.eqb_neq in Hname. by rewrite Hname, Ha.
  - reflexivity.
Qed.

Lemma ingest_rejects_in_order_witness :
  save_uploaded_file Posix.platform
    (Some (Posix.upload "malware.exe" (Posix.bytes_of "MZ")))
    Sample.case Sample.user Posix.fresh
  = (Return (Failure UnsupportedType), Posix.fresh).
Proof.
  destruct (ingest_rejects_in_order Posix.platform
              (Some (Posix.upload "malware.exe" (Posix.bytes_of "MZ")))
              Sample.case Sample.user Posix.fresh) as (_ & _ & Hrej & _).
  apply (Hrej _ eq_refl).
  - simpl. discriminate.
  - vm_compute. reflexivity.
Defined.

(** C4. A name that passes [allowed_file] and whose sanitised form has
    no dot left makes the call raise [IndexError]: the index into the
    split of the sanitised name is taken outside every handler.  The
    name ".pdf" is such a name on every platform whose normalisation
    leaves it alone. *)
Theorem ingest_raises_on_bare_extension (P : Platform) (data : list byte)
    (case_id uploaded_by : string) (w : world) :
  nfkd_ascii P ".pdf" = ".pdf" →
  allowed_file ".pdf" = true
  ∧ secure_filename P ".pdf" = "pdf"
  ∧ save_uploaded_file P (Some (Posix.upload ".pdf" data)) case_id uploaded_by w
    = (Raise IndexError, w).
Proof.
  intros Hn.
  assert (secure_filename P ".pdf" = "pdf") as Hs.
  { unfold secure_filename. rewrite Hn. reflexivity. }
  split_and!; [reflexivity|done|].
  unfold save_uploaded_file. cbn [Posix.upload filename truthy negb].
  change (allowed_file ".pdf") with true. cbn [String.eqb Ascii.eqb negb].
  rewrite Hs. reflexivity.
Qed.

Lemma ingest_raises_on_bare_extension_witness :
  allowed_file ".pdf" = true
  ∧ secure_filename Posix.platform ".pdf" = "pdf"
  ∧ save_uploaded_file Posix.platform
      (Some (Posix.upload ".pdf" (Posix.bytes_of "%PDF-1.7")))
      Sample.case Sample.user Posix.fresh
    = (Raise IndexError, Posix.fresh).
Proof.
  apply (ingest_raises_on_bare_extension Posix.platform
           (Posix.bytes_of "%PDF-1.7") Sample.case Sample.user Posix.fresh).
  reflexivity.
Defined.

(** The sanitised name has one last dot. *)
Lemma accepted_unique P f stem ext stem' ext' :
  accepted P f stem ext → accepted P f stem' ext' → stem' = stem ∧ ext' = ext.
Proof. intros (_ & _ & H) (_ & _ & H'). rewrite H in H'. by injection H'. Qed.

Lemma accepted_truthy P f stem ext : accepted P f stem ext → truthy (Some f) = true.
Proof. intros (Hn & _). simpl. apply String.eqb_neq in Hn. by rewrite Hn. Qed.

(** The limit, and the text that states it. *)
Lemma limit_text :
  MAX_FILE_SIZE = 52428800%N
  ∧ FileTooLarge = "File too large. Maximum size: 50.0MB".
Proof. split; reflexivity. Qed.

(** C3. An upload that is accepted and written whole, and whose size on
    disk is above [MAX_FILE_SIZE] (52,428,800 bytes), is removed again:
    the call answers FileTooLarge, whose text gives the limit as 50.0MB,
    and afterwards the case directory holds no file under the stored
    name and no name it did not hold before. *)
Theorem ingest_too_large_leaves_nothing (P : Platform) (f : FileStorage)
    (stem ext case_id uploaded_by : string) (w : world) :
  let d := case_dir P case_id in
  let name := stored_name P w ext in
  accepted P f stem ext →
  writable name (entries d w) →
  fault f = None →
  (MAX_FILE_SIZE < N.of_nat (length (stream f)))%N →
  ∃ w', save_uploaded_file P (Some f) case_id uploaded_by w
          = (Return (Failure FileTooLarge), w')
        ∧ FileTooLarge = "File too large. Maximum size: 50.0MB"
        ∧ file_at (d, name) w' = None
        ∧ (name ∉ (entries d w').*1)
        ∧ (entries d w').*1 = filter (λ n, n ≠ name) (entries d w).*1
        ∧ (disk w !! d = None → disk w' !! d = Some []).
Proof.
  intros d name Hacc Hw Hf Hsize.
  exists (with_entries d (dir_remove name (entries d w)) w).
  assert (entries d (with_entries d (dir_remove name (entries d w)) w)
          = dir_remove name (entries d w)) as He.
  { unfold entries at 1, with_entries. cbn [disk]. by rewrite lookup_insert_eq. }
  split_and!.
  - destruct (save_uploaded_file P (Some f) case_id uploaded_by w) as [o w'] eqn:H.
    run_of H;
      try match goal with
          | H' : accepted P f _ _ |- _ =>
              destruct (accepted_unique _ _ _ _ _ _ Hacc H') as [-> ->]
          end.
    + by rewrite (accepted_truthy _ _ _ _ Hacc) in *.
    + destruct Hacc as (_ & ? & _). congruence.
    + destruct Hacc as (_ & _ & ?). congruence.
    + match goal with Hg : dir_lookup _ _ = Some ?g |- _ => apply Hw in Hg end.
      congruence.
    + congruence.
    + done.
    + lia.
  - reflexivity.
  - unfold file_at, with_entries. cbn [disk fst snd]. rewrite lookup_insert_eq.
    apply dir_lookup_remove_eq.
  - rewrite He, dir_remove_names. rewrite list_elem_of_filter. naive_solver.
  - by rewrite He, dir_remove_names.
  - intros Hnone.
    assert (entries d w = []) as Hnil by (unfold entries; by rewrite Hnone).
    unfold with_entries. cbn [disk]. by rewrite lookup_insert_eq, Hnil.
Qed.

Lemma ingest_too_large_leaves_nothing_witness :
  let d := case_dir Posix.platform Sample.case in
  let name := stored_name Posix.platform Posix.fresh "pdf" in
  ∃ w', save_uploaded_file Posix.platform (Some Sample.scan)
          Sample.case Sample.user Posix.fresh
          = (Return (Failure FileTooLarge), w')
        ∧ FileTooLarge = "File too large. Maximum size: 50.0MB"
        ∧ file_at (d, name) w' = None
        ∧ (name ∉ (entries d w').*1)
        ∧ (entries d w').*1 = filter (λ n, n ≠ name) (entries d Posix.fresh).*1
        ∧ (disk Posix.fresh !! d = None → disk w' !! d = Some []).
Proof.
  apply (ingest_too_large_leaves_nothing Posix.platform Sample.scan
           "scan" "pdf" Sample.case Sample.user Posix.fresh).
  - split_and!; [discriminate|reflexivity..].
  - intros g Hg. discriminate Hg.
  - reflexivity.
  - cbn [Sample.scan Posix.upload stream]. rewrite repeat_length, N2Nat.id.
    reflexivity.
Defined.

(** The error texts tell the rejections apart. *)
Lemma write_failure_text cause :
  WriteFailure cause ≠ NoFile ∧ WriteFailure cause ≠ UnsupportedType.
Proof. split; discriminate. Qed.

Lemma too_large_text : FileTooLarge ≠ NoFile ∧ FileTooLarge ≠ UnsupportedType.
Proof. split; discriminate. Qed.

(** A run either stops before it touches the world, or has drawn an
    identifier and made the case directory. *)
Lemma ingest_run_classes P file case_id uploaded_by w o w' :
  ingest_run P case_id uploaded_by w file (o, w') →
  (w' = w
   ∧ (o = Return (Failure NoFile) ∨ o = Return (Failure UnsupportedType)
      ∨ o = Raise IndexError))
  ∨ ((∃ es, w' = with_entries (case_dir P case_id) es w)
     ∧ (o = Return (Failure FileTooLarge)
        ∨ (∃ cause, o = Return (Failure (WriteFailure cause)))
        ∨ ∃ m, o = Return (Success m))).
Proof.
  inversion 1; subst; [left; split; [done|]; auto..| | | |]; right;
    (split; [by eexists|]); eauto.
Qed.

(** C10. A call answered with NoFile or UnsupportedType leaves the world
    as it found it: no directory is made and no file is written.  A
    call that fails and has changed the disk, be it by a case directory
    that was not there before, failed with FileTooLarge or with
    WriteFailure; a call that raises leaves the disk alone as well. *)
Theorem ingest_rejection_frame (P : Platform) (file : option FileStorage)
    (case_id uploaded_by : string) (w w' : world) (o : outcome (reply metadata)) :
  save_uploaded_file P file case_id uploaded_by w = (o, w') →
  (o = Return (Failure NoFile) ∨ o = Return (Failure UnsupportedType) → w' = w)
  ∧ (∀ e, o = Raise e → w' = w)
  ∧ (∀ error, o = Return (Failure error) → disk w' ≠ disk w →
       error = FileTooLarge ∨ ∃ cause, error = WriteFailure cause)
  ∧ (∀ error, o = Return (Failure error) →
       disk w !! case_dir P case_id = None →
       is_Some (disk w' !! case_dir P case_id) →
       error = FileTooLarge ∨ ∃ cause, error = WriteFailure cause).
Proof.
  intros H.
  pose proof (save_uploaded_file_runs P file case_id uploaded_by w) as R.
  rewrite H in R. apply ingest_run_classes in R.
  destruct R as [[-> Ho]|[_ Ho]].
  - split_and!; [done |done | |].
    + intros error _ Hd. by destruct Hd.
    + intros error _ Hnone [es Hes]. congruence.
  - assert (∀ error, o = Return (Failure error) →
              error = FileTooLarge ∨ ∃ cause, error = WriteFailure cause) as Herr.
    { intros error ->.
      destruct Ho as [[= ->]|[[cause [= ->]]|[m [=]]]]; [by left|right; by eexists]. }
    split_and!.
    + intros [->| ->].
      * destruct (Herr _ eq_refl) as [E|[cause E]];
          [by destruct too_large_text|by destruct (write_failure_text cause)].
      * destruct (Herr _ eq_refl) as [E|[cause E]];
          [by destruct too_large_text|by destruct (write_failure_text cause)].
    + intros e ->. destruct Ho as [[=]|[[cause [=]]|[m [=]]]].
    + intros error Hout _. by apply Herr.
    + intros error Hout _ _. by apply Herr.
Qed.

Lemma ingest_rejection_frame_witness :
  let o : outcome (reply metadata) := Return (Failure UnsupportedType) in
  let w := Posix.fresh in
  (o = Return (Failure NoFile) ∨ o = Return (Failure UnsupportedType) → w = w)
  ∧ (∀ e, o = Raise e → w = w)
  ∧ (∀ error, o = Return (Failure error) → disk w ≠ disk w →
       error = FileTooLarge ∨ ∃ cause, error = WriteFailure cause)
  ∧ (∀ error, o = Return (Failure error) →
       disk w !! case_dir Posix.platform Sample.case = None →
       is_Some (disk w !! case_dir Posix.platform Sample.case) →
       error = FileTooLarge ∨ ∃ cause, error = WriteFailure cause).
Proof.
  apply (ingest_rejection_frame Posix.platform
           (Some (Posix.upload "malware.exe" (Posix.bytes_of "MZ")))
           Sample.case Sample.user Posix.fresh).
  vm_compute. reflexivity.
Defined.

(** ** Stored names *)






Lemma entries_with_entries d es w : entries d (with_entries d es w) = es.
Proof. unfold entries, with_entries. cbn [disk]. by rewrite lookup_insert_eq. Qed.

Lemma file_at_with_entries d name es w :
  file_at (d, name) (with_entries d es w) = dir_lookup name es.
Proof. unfold file_at, with_entries. cbn [disk fst snd]. by rewrite lookup_insert_eq. Qed.






(** ** Lookup and deletion *)

Section Locate.

Variable P : Platform.

Implicit Types (names : list string) (w : world).

Lemma first_startswith_None document_id names :
  first_startswith document_id names = None ↔
  ∀ x, x ∈ names → Str.startswith x document_id = false.
Proof.
  induction names as [|n names IH]; simpl.
  - split; [|done]. by intros _ x ?%elem_of_nil.
  - destruct (Str.startswith n document_id) eqn:E.
    + split; [done|]. intros H. rewrite H in E; [done|]. by left.
    + rewrite IH. split.
      * intros H x [->|?]%elem_of_cons; auto.
      * intros H x Hx. apply H. by right.
Qed.

Lemma first_startswith_Some document_id names n :
  first_startswith document_id names = Some n ↔
  ∃ before after,
    names = before ++ n :: after
    ∧ Str.startswith n document_id = true
    ∧ ∀ x, x ∈ before → Str.startswith x document_id = false.
Proof.
  induction names as [|n' names IH]; simpl.
  - split; [done|]. intros (before & after & E & _). by destruct before.
  - destruct (Str.startswith n' document_id) eqn:E.
    + split.
      * intros [= ->]. exists [], names. split_and!; [done..|].
        by intros x ?%elem_of_nil.
      * intros ([|b before] & after & Hn & Hs & Hb); simplify_eq/=; [done|].
        rewrite Hb in E; [done|]. by left.
    + rewrite IH. split.
      * intros (before & after & -> & Hs & Hb).
        exists (n' :: before), after. split_and!; [done..|].
        intros x [->|?]%elem_of_cons; auto.
      * intros ([|b before] & after & Hn & Hs & Hb); simplify_eq/=; [congruence|].
        exists before, after. split_and!; [done..|].
        intros x Hx. apply Hb. by right.
Qed.

Lemma first_startswith_elem document_id names n :
  first_startswith document_id names = Some n → n ∈ names.
Proof.
  intros (before & after & -> & _)%first_startswith_Some.
  apply elem_of_app. right. by left.
Qed.

Lemma startswith_app s rest : Str.startswith (s +:+ rest) s = true.
Proof.
  induction s as [|a s IH]; simpl; [by destruct rest|].
  by rewrite Ascii.eqb_refl, IH.
Qed.

(** [get_file_path] reads the disk and leaves it alone; its answer is
    the first match of the listing. *)
Lemma get_file_path_run document_id case_id w :
  get_file_path P document_id case_id w
  = (Return ((λ n, (case_dir P case_id, n))
               <$> first_startswith document_id (entries (case_dir P case_id) w).*1),
     w).
Proof.
  unfold get_file_path, mbind, io_bind, Os.dir_exists, Os.listdir, entries.
  fold (case_dir P case_id).
  destruct (disk w !! case_dir P case_id) as [es|] eqn:E.
  - rewrite bool_decide_eq_true_2 by by eexists. by rewrite E.
  - rewrite bool_decide_eq_false_2 by by intros [? ?]. done.
Qed.

Lemma path_exists_run (p : path) w :
  Os.path_exists p w = (Return (bool_decide (is_Some (file_at p w))), w).
Proof. done. Qed.

Lemma delete_file_run document_id case_id w :
  let d := case_dir P case_id in
  delete_file P document_id case_id w
  = match first_startswith document_id (entries d w).*1 with
    | None => (Return (Failure NotFound), w)
    | Some n =>
        match dir_lookup n (entries d w) with
        | None => (Return (Failure NotFound), w)
        | Some g =>
            if immutable g
            then (Return (Failure (DeleteFailure (exn_str P (PermissionError (d, n))))), w)
            else (Return (Success "File deleted"),
                  set_disk (<[d := dir_remove n (entries d w)]> (disk w)) w)
        end
    end.
Proof.
  intros d. unfold delete_file, mbind, io_bind at 1. rewrite get_file_path_run.
  fold d. destruct (first_startswith document_id (entries d w).*1) as [n|] eqn:Hn;
    [|done].
  cbn [fmap option_fmap option_map]. unfold io_bind, Os.path_exists, try_except.
  pose proof (first_startswith_elem _ _ _ Hn) as Hin.
  apply dir_lookup_names in Hin as [g Hg].
  assert (disk w !! d = Some (entries d w)) as Hd.
  { unfold entries in *. destruct (disk w !! d); [done|]. discriminate Hg. }
  assert (file_at (d, n) w = Some g) as Hat.
  { unfold file_at. cbn [fst snd]. by rewrite Hd. }
  rewrite Hat, Hg. rewrite bool_decide_eq_true_2 by by eexists.
  rewrite (remove_run (d, n) w _ g Hd Hg). by destruct (immutable g).
Qed.

End Locate.

(** C7. [get_file_path] changes nothing and answers with the first name
    of the case directory, in listing order, that starts with the
    identifier, joined to the directory; it answers [None] when no name
    starts with it and when the directory is missing.  A path it
    answers with exists on disk, and for the identifier of a successful
    ingestion it does answer with a path. *)
Theorem locate_first_match (P : Platform) (doc_id case_id : string) (w : world) :
  let d := case_dir P case_id in
  let names := (entries d w).*1 in
  ∃ r, get_file_path P doc_id case_id w = (Return r, w)
    ∧ (∀ p, r = Some p ↔
         ∃ before n after,
           p = (d, n) ∧ names = before ++ n :: after
           ∧ Str.startswith n doc_id = true
           ∧ ∀ x, x ∈ before → Str.startswith x doc_id = false)
    ∧ (r = None ↔ ∀ x, x ∈ names → Str.startswith x doc_id = false)
    ∧ (disk w !! d = None → r = None)
    ∧ (∀ p, r = Some p → Os.path_exists p w = (Return true, w))
    ∧ (∀ f uploaded_by w0 m,
         save_uploaded_file P (Some f) case_id uploaded_by w0
         = (Return (Success m), w) →
         doc_id = document_id m →
         ∃ p, r = Some p ∧ Os.path_exists p w = (Return true, w)).
Proof.
  intros d names. rewrite get_file_path_run. fold d names.
  eexists. split; [done|].
  assert (∀ p, (λ n, (d, n)) <$> first_startswith doc_id names = Some p →
               Os.path_exists p w = (Return true, w)) as Hexists.
  { intros p [n [Hn ->]]%fmap_Some. rewrite path_exists_run.
    apply first_startswith_elem, dir_lookup_names in Hn.
    rewrite bool_decide_eq_true_2; [done|].
    unfold file_at. cbn [fst snd]. subst names. unfold entries in *.
    destruct (disk w !! d); [done|]. by destruct Hn. }
  split_and!.
  - intros p. rewrite fmap_Some. split.
    + intros (n & (before & after & ? & ? & ?)%first_startswith_Some & ->).
      by exists before, n, after.
    + intros (before & n & after & -> & ? & ? & ?). exists n. split; [|done].
      apply first_startswith_Some. by exists before, after.
  - rewrite fmap_None. apply first_startswith_None.
  - intros Hnone. subst names. unfold entries. by rewrite Hnone.
  - done.
  - intros f uploaded_by w0 m H ->.
    assert (is_Some (first_startswith (document_id m) names)) as [n Hn].
    { apply not_eq_None_Some. intros Hn. rewrite first_startswith_None in Hn.
      subst names d. run_of H. cbn [document_id] in Hn.
      assert (Str.startswith name (uuid4 P (draws w0)) = true) as Hs
        by (unfold name, stored_name; apply startswith_app).
      specialize (Hn name). rewrite Hs in Hn.
      enough (name ∈ (entries d (with_entries d
                 (dir_write name (File (stream f) false) (entries d w0)) w0)).*1)
        by naive_solver.
      rewrite entries_with_entries. apply dir_lookup_names.
      rewrite dir_lookup_write_eq. by eexists. }
    exists (d, n). rewrite Hn. split; [done|]. apply Hexists. by rewrite Hn.
Qed.

Lemma locate_first_match_witness :
  ∃ p, get_file_path Posix.platform (document_id Sample.notes_metadata)
         Sample.case Sample.after_notes
       = (Return (Some p), Sample.after_notes)
     ∧ Os.path_exists p Sample.after_notes = (Return true, Sample.after_notes).
Proof.
  destruct (locate_first_match Posix.platform
              (document_id Sample.notes_metadata) Sample.case Sample.after_notes)
    as (r & Hrun & _ & _ & _ & _ & Hingested).
  destruct (Hingested Sample.notes Sample.user Posix.fresh Sample.notes_metadata)
    as (p & -> & Hp).
  - vm_compute. reflexivity.
  - reflexivity.
  - by exists p.
Defined.

(** The claim of C8 as it was stated fails where two stored names start
    with the identifier: the first is deleted, and the lookup that
    follows finds the second. *)
Lemma delete_then_locate_finds_next :
  delete_file Posix.platform Sample.shared_prefix Sample.case Sample.after_notes_twice
  = (Return (Success "File deleted"), Sample.after_delete)
  ∧ get_file_path Posix.platform Sample.shared_prefix Sample.case Sample.after_delete
    = (Return (Some (Sample.dir, Sample.second_name)), Sample.after_delete).
Proof. split; vm_compute; reflexivity. Qed.

(** C8, amended. [delete_file] looks the path up as [get_file_path]
    does.  When no stored name starts with the identifier it answers
    NotFound and changes nothing.  Otherwise it removes the first
    match; when the removal raises it answers DeleteFailure with the
    text of the exception and changes nothing.  After a removal that
    succeeded the file is gone, a lookup of the same identifier answers
    with the first of the remaining names that starts with it, and so
    with [None] when the removed name was the only one. *)
Theorem delete_then_locate (P : Platform) (doc_id case_id : string) (w : world) :
  let d := case_dir P case_id in
  let names := (entries d w).*1 in
  ((∀ x, x ∈ names → Str.startswith x doc_id = false) →
     get_file_path P doc_id case_id w = (Return None, w)
     ∧ delete_file P doc_id case_id w = (Return (Failure NotFound), w))
  ∧ (∀ n, get_file_path P doc_id case_id w = (Return (Some (d, n)), w) →
       ∃ g, file_at (d, n) w = Some g
         ∧ (immutable g = true →
              delete_file P doc_id case_id w
              = (Return (Failure (DeleteFailure (exn_str P (PermissionError (d, n))))), w))
         ∧ (immutable g = false →
              ∃ w', delete_file P doc_id case_id w
                    = (Return (Success "File deleted"), w')
                ∧ file_at (d, n) w' = None
                ∧ (entries d w').*1 = filter (λ x, x ≠ n) names
                ∧ get_file_path P doc_id case_id w'
                  = (Return ((λ x, (d, x))
                       <$> first_startswith doc_id (filter (λ x, x ≠ n) names)), w')
                ∧ ((∀ x, x ∈ names → Str.startswith x doc_id = true → x = n) →
                   get_file_path P doc_id case_id w' = (Return None, w')))).
Proof.
  intros d names. split.
  - intros Hnone%first_startswith_None.
    rewrite get_file_path_run, delete_file_run. fold d names. by rewrite Hnone.
  - intros n. rewrite get_file_path_run. fold d names. intros [= Hn].
    apply fmap_Some in Hn as (n' & Hn & [= <-]).
    pose proof (first_startswith_elem _ _ _ Hn) as Hin.
    apply dir_lookup_names in Hin as [g Hg].
    assert (disk w !! d = Some (entries d w)) as Hd.
    { unfold entries in *. destruct (disk w !! d); [done|]. discriminate Hg. }
    exists g. split_and!.
    + unfold file_at. cbn [fst snd]. by rewrite Hd.
    + intros Hi. rewrite delete_file_run. fold d names. by rewrite Hn, Hg, Hi.
    + intros Hi.
      set (w' := set_disk (<[d := dir_remove n (entries d w)]> (disk w)) w).
      assert (entries d w' = dir_remove n (entries d w)) as He.
      { unfold entries at 1, w', set_disk. cbn [disk]. by rewrite lookup_insert_eq. }
      assert (get_file_path P doc_id case_id w'
              = (Return ((λ x, (d, x))
                   <$> first_startswith doc_id (filter (λ x, x ≠ n) names)), w'))
        as Hlocate.
      { rewrite get_file_path_run. fold d. by rewrite He, dir_remove_names. }
      exists w'. split_and!.
      * rewrite delete_file_run. fold d names. by rewrite Hn, Hg, Hi.
      * unfold file_at, w', set_disk. cbn [disk fst snd].
        rewrite lookup_insert_eq. apply dir_lookup_remove_eq.
      * by rewrite He, dir_remove_names.
      * done.
      * intros Honly. rewrite Hlocate.
        assert (first_startswith doc_id (filter (λ x, x ≠ n) names) = None) as ->;
          [|done].
        apply first_startswith_None. intros x [Hx Hne]%list_elem_of_filter.
        destruct (Str.startswith x doc_id) eqn:E; [|done].
        by destruct Hx, (Honly x).
Qed.

Lemma delete_then_locate_witness :
  ∃ w', delete_file Posix.platform (document_id Sample.second_metadata)
          Sample.case Sample.after_notes_twice
        = (Return (Success "File deleted"), w')
      ∧ get_file_path Posix.platform (document_id Sample.second_metadata)
          Sample.case w'
        = (Return None, w').
Proof.
  destruct (delete_then_locate Posix.platform
              (document_id Sample.second_metadata) Sample.case
              Sample.after_notes_twice) as [_ Hfound].
  destruct (Hfound Sample.second_name) as (g & Hg & _ & Hremoved).
  { vm_compute. reflexivity. }
  destruct Hremoved as (w' & Hdel & _ & _ & _ & Hgone).
  { vm_compute in Hg. by injection Hg as <-. }
  exists w'. split; [exact Hdel|]. apply Hgone.
  intros x Hx Hs. vm_compute in Hx.
  apply elem_of_cons in Hx as [->|Hx]; [discriminate Hs|].
  by apply list_elem_of_singleton in Hx.
Defined.

(** ** Failed writes *)

(** An upload whose copy breaks off is answered with WriteFailure and
    the text of the exception; what had been copied stays in the case
    directory under the stored name, where a lookup by the identifier
    finds it. *)
Lemma write_failure_run (P : Platform) (f : FileStorage)
    (stem ext case_id uploaded_by : string) (w : world) (n : nat) (msg : string) :
  let d := case_dir P case_id in
  let name := stored_name P w ext in
  accepted P f stem ext →
  writable name (entries d w) →
  fault f = Some (n, msg) →
  save_uploaded_file P (Some f) case_id uploaded_by w
  = (Return (Failure (WriteFailure (exn_str P (OSError msg)))),
     with_entries d (dir_write name (File (take n (stream f)) false) (entries d w)) w).
Proof.
  intros d name Hacc Hw Hf.
  destruct (save_uploaded_file P (Some f) case_id uploaded_by w) as [o w'] eqn:H.
  run_of H;
    try match goal with
        | H' : accepted P f _ _ |- _ =>
            destruct (accepted_unique _ _ _ _ _ _ Hacc H') as [-> ->]
        end.
  - by rewrite (accepted_truthy _ _ _ _ Hacc) in *.
  - destruct Hacc as (_ & ? & _). congruence.
  - destruct Hacc as (_ & _ & ?). congruence.
  - match goal with Hg : dir_lookup _ _ = Some ?g |- _ => apply Hw in Hg end.
    congruence.
  - match goal with
    | H' : fault f = Some (_, _) |- _ => rewrite Hf in H'; injection H' as <- <-
    end.
    reflexivity.
  - congruence.
  - congruence.
Qed.

(** C9. Where the claim fails: the copy of "notes.txt" breaks off after
    four bytes (the disk is full).  The call answers WriteFailure with
    the cause, and the four bytes stay in the case directory as
    [identifier.txt]: a listing of the case reports them as a file of
    the case, and a lookup by the identifier answers with their path. *)
Theorem write_failure_leaves_partial_file :
  save_uploaded_file Posix.platform (Some Sample.cut_short)
    Sample.case Sample.user Posix.fresh
  = (Return (Failure "Failed to save file: [Errno 28] No space left on device"),
     Sample.after_cut_short)
  ∧ file_at (Sample.dir, Sample.notes_name) Sample.after_cut_short
    = Some (File (Posix.bytes_of "0123") false)
  ∧ list_uploaded_files Posix.platform Sample.case Sample.after_cut_short
    = (Return [ {| l_filename := Sample.notes_name;
                   l_path := (Sample.dir, Sample.notes_name);
                   l_size := 4 |} ],
       Sample.after_cut_short)
  ∧ get_file_path Posix.platform "00000000-0000-4000-8000-000000000000"
      Sample.case Sample.after_cut_short
    = (Return (Some (Sample.dir, Sample.notes_name)), Sample.after_cut_short).
Proof. split_and!; vm_compute; reflexivity. Qed.


(** * Further properties of the handler *)

(** ** Hashing and sizing a stored file *)

(** [get_file_hash] and [get_file_size] read a stored file without
    changing the disk: the hash is the digest of the whole content,
    whatever its length against the 4096-byte block, and the size is
    its number of bytes. *)
Theorem file_hash_and_size (P : Platform) (p : path) (w : world) (g : file) :
  file_at p w = Some g →
  get_file_hash P p w = (Return (sha256_hexdigest P (content g)), w)
  ∧ get_file_size p w = (Return (N.of_nat (length (content g))), w).
Proof.
  intros E. split; [by apply get_file_hash_run|by apply get_file_size_run].
Qed.

Lemma file_hash_and_size_witness :
  let p := (Sample.dir, Sample.notes_name) in
  let g := File (Posix.bytes_of "0123456789") false in
  get_file_hash Posix.platform p Sample.after_notes
  = (Return (sha256_hexdigest Posix.platform (content g)), Sample.after_notes)
  ∧ get_file_size p Sample.after_notes
    = (Return (N.of_nat (length (content g))), Sample.after_notes).
Proof.
  apply (file_hash_and_size Posix.platform (Sample.dir, Sample.notes_name)
           Sample.after_notes (File (Posix.bytes_of "0123456789") false)).
  vm_compute. reflexivity.
Defined.

(** ** Listing a case *)

Lemma file_at_entries_eq d n w : file_at (d, n) w = dir_lookup n (entries d w).
Proof. unfold file_at, entries. cbn [fst snd]. by destruct (disk w !! d). Qed.

(** The loop of [list_uploaded_files] over names of the directory. *)
Lemma list_loop_run (d : string) (es : directory) (w : world) :
  disk w !! d = Some es →
  ∀ names files,
    (∀ n, n ∈ names → n ∈ es.*1) →
    ∃ more,
      list_loop d names files w = (Return (files ++ more), w)
      ∧ l_filename <$> more = names
      ∧ ∀ e, e ∈ more →
          l_path e = (d, l_filename e)
          ∧ ∃ g, file_at (l_path e) w = Some g
                 ∧ l_size e = N.of_nat (length (content g)).
Proof.
  intros Hd names. induction names as [|n names IH]; intros files Hin.
  - exists []. rewrite app_nil_r. split_and!; [done..|]. by intros e ?%elem_of_nil.
  - assert (n ∈ es.*1) as [g Hg]%dir_lookup_names by (apply Hin; by left).
    assert (file_at (d, n) w = Some g) as Hat.
    { unfold file_at. cbn [fst snd]. by rewrite Hd. }
    cbn [list_loop]. unfold mbind, io_bind at 1, Os.path_exists.
    rewrite Hat, bool_decide_eq_true_2 by by eexists.
    unfold io_bind at 1. rewrite (get_file_size_run _ _ _ Hat).
    destruct (IH (files ++ [ {| l_filename := n; l_path := (d, n);
                                l_size := N.of_nat (length (content g)) |} ]))
      as (more & Hrun & Hnames & Hmore).
    { intros x Hx. apply Hin. by right. }
    eexists (_ :: more). rewrite Hrun, <- app_assoc. split_and!; [done| |].
    + rewrite fmap_cons. cbn [l_filename]. by rewrite Hnames.
    + intros e [->|He]%elem_of_cons; [|by apply Hmore].
      cbn [l_path l_filename l_size]. split; [done|]. by exists g.
Qed.

(** The listing of a case, by what the disk holds at the case path. *)
Lemma list_uploaded_files_run (P : Platform) (case_id : string)
    (w : world) :
  let d := case_dir P case_id in
  ∃ files,
    list_uploaded_files P case_id w = (Return files, w)
    ∧ l_filename <$> files = (entries d w).*1
    ∧ (∀ e, e ∈ files →
         l_path e = (d, l_filename e)
         ∧ ∃ g, file_at (l_path e) w = Some g
                ∧ l_size e = N.of_nat (length (content g)))
    ∧ (disk w !! d = None → files = []).
Proof.
  intros d. unfold list_uploaded_files, mbind, io_bind at 1, Os.dir_exists.
  fold (case_dir P case_id). fold d. unfold entries.
  destruct (disk w !! d) as [es|] eqn:Hd.
  - rewrite bool_decide_eq_true_2 by by eexists. cbn [negb].
    unfold io_bind, Os.listdir. rewrite Hd.
    destruct (list_loop_run d es w Hd es.*1 []) as (more & Hrun & Hnames & Hmore);
      [done|].
    exists more. by rewrite Hrun.
  - rewrite bool_decide_eq_false_2 by by intros [? ?]. cbn [negb].
    exists []. split_and!; [done..| |done]. by intros e ?%elem_of_nil.
Qed.

(** Where the case path is a directory of regular files,
    [list_uploaded_files] changes nothing and reports one entry for
    each file of the directory, in listing order: its name, its path
    in the directory and its size in bytes. *)
Theorem list_uploaded_files_lists_directory (P : Platform) (case_id : string)
    (w : world) (es : directory) :
  let d := case_dir P case_id in
  disk w !! d = Some es →
  ∃ files,
    list_uploaded_files P case_id w = (Return files, w)
    ∧ l_filename <$> files = es.*1
    ∧ ∀ e, e ∈ files →
        l_path e = (d, l_filename e)
        ∧ ∃ g, dir_lookup (l_filename e) es = Some g
               ∧ l_size e = N.of_nat (length (content g)).
Proof.
  intros d Hd.
  destruct (list_uploaded_files_run P case_id w) as (files & Hrun & Hnames & Hfiles & _).
  assert (entries (case_dir P case_id) w = es) as He
    by (unfold entries; fold d; by rewrite Hd).
  exists files. rewrite He in Hnames. split_and!; [done..|].
  intros e Hin. destruct (Hfiles e Hin) as (Hp & g & Hg & Hs).
  split; [done|]. exists g. split; [|done].
  rewrite Hp, file_at_entries_eq, He in Hg. done.
Qed.

Lemma list_uploaded_files_lists_directory_witness :
  let d := case_dir Posix.platform Sample.case in
  let es := [(Sample.notes_name, File (Posix.bytes_of "0123456789") false);
             (Sample.second_name, File (Posix.bytes_of "0123456789") false)] in
  ∃ files,
    list_uploaded_files Posix.platform Sample.case Sample.after_notes_twice
    = (Return files, Sample.after_notes_twice)
    ∧ l_filename <$> files = es.*1
    ∧ ∀ e, e ∈ files →
        l_path e = (d, l_filename e)
        ∧ ∃ g, dir_lookup (l_filename e) es = Some g
               ∧ l_size e = N.of_nat (length (content g)).
Proof.
  apply (list_uploaded_files_lists_directory Posix.platform Sample.case
           Sample.after_notes_twice).
  vm_compute. reflexivity.
Defined.

(** ** Runs that store the upload *)

(** Settles which run a call is, from facts about its input. *)
Ltac settle_run Hacc Hw :=
  try match goal with
      | H' : accepted _ _ _ _ |- _ =>
          destruct (accepted_unique _ _ _ _ _ _ Hacc H') as [-> ->]
      end;
  try (rewrite (accepted_truthy _ _ _ _ Hacc) in *; discriminate);
  try (destruct Hacc as (_ & ? & ?); congruence);
  try (match goal with Hg : dir_lookup _ _ = Some ?g |- _ => apply Hw in Hg end;
       congruence);
  try congruence; try lia.

Lemma stored_run (P : Platform) (f : FileStorage)
    (stem ext case_id uploaded_by : string) (w : world) :
  let d := case_dir P case_id in
  let name := stored_name P w ext in
  accepted P f stem ext →
  writable name (entries d w) →
  fault f = None →
  (N.of_nat (length (stream f)) ≤ MAX_FILE_SIZE)%N →
  ∃ m, save_uploaded_file P (Some f) case_id uploaded_by w
       = (Return (Success m),
          with_entries d (dir_write name (File (stream f) false) (entries d w)) w)
     ∧ document_id m = uuid4 P (draws w)
     ∧ stored_filename m = name
     ∧ file_path m = (d, name)
     ∧ file_size m = N.of_nat (length (stream f)).
Proof.
  intros d name Hacc Hw Hf Hsize.
  destruct (save_uploaded_file P (Some f) case_id uploaded_by w) as [o w'] eqn:H.
  run_of H; settle_run Hacc Hw.
  eexists. split; [reflexivity|]. done.
Qed.

(** The size limit is inclusive: an accepted upload that is written
    whole is stored exactly when it has at most [MAX_FILE_SIZE] bytes;
    one byte more and it is refused. *)
Theorem size_limit_is_inclusive (P : Platform) (f : FileStorage)
    (stem ext case_id uploaded_by : string) (w : world) :
  accepted P f stem ext →
  writable (stored_name P w ext) (entries (case_dir P case_id) w) →
  fault f = None →
  (∃ m w', save_uploaded_file P (Some f) case_id uploaded_by w
           = (Return (Success m), w'))
  ↔ (N.of_nat (length (stream f)) ≤ 52428800)%N.
Proof.
  intros Hacc Hw Hf. change 52428800%N with MAX_FILE_SIZE. split.
  - intros (m & w' & H). run_of H. done.
  - intros Hsize.
    destruct (stored_run P f stem ext case_id uploaded_by w Hacc Hw Hf Hsize)
      as (m & H & _).
    by eexists _, _.
Qed.

Lemma size_limit_is_inclusive_witness :
  let f := Posix.upload "scan.pdf" (repeat "000"%byte (N.to_nat 52428800)) in
  (∃ m w', save_uploaded_file Posix.platform (Some f) Sample.case Sample.user
             Posix.fresh
           = (Return (Success m), w'))
  ↔ (N.of_nat (length (stream f)) ≤ 52428800)%N.
Proof.
  apply (size_limit_is_inclusive Posix.platform
           (Posix.upload "scan.pdf" (repeat "000"%byte (N.to_nat 52428800)))
           "scan" "pdf" Sample.case Sample.user Posix.fresh).
  - split_and!; [discriminate|reflexivity..].
  - intros g Hg. discriminate Hg.
  - reflexivity.
Defined.

(** ** Ingestion followed by listing, lookup and deletion *)

Lemma first_startswith_app doc_id names names' :
  first_startswith doc_id (names ++ names')
  = match first_startswith doc_id names with
    | Some n => Some n
    | None => first_startswith doc_id names'
    end.
Proof.
  induction names as [|n names IH]; simpl; [done|].
  by destruct (Str.startswith n doc_id).
Qed.

Lemma dir_remove_absent name (es : directory) :
  name ∉ es.*1 → dir_remove name es = es.
Proof.
  induction es as [|[n g] es IH]; csimpl; [done|].
  intros Hn. apply not_elem_of_cons in Hn as [Hne Hn].
  destruct (String.eqb n name) eqn:E.
  - apply String.eqb_eq in E. congruence.
  - by rewrite IH.
Qed.

(** A stored name starts with its identifier. *)
Lemma stored_name_startswith P w ext :
  Str.startswith (stored_name P w ext) (uuid4 P (draws w)) = true.
Proof. apply startswith_app. Qed.

(** After a successful ingestion the listing of the case reports the
    new file under its stored name, at the path and with the size the
    ingestion returned. *)
Theorem ingest_then_list (P : Platform) (f : FileStorage)
    (case_id uploaded_by : string) (w w' : world) (m : metadata) :
  save_uploaded_file P (Some f) case_id uploaded_by w = (Return (Success m), w') →
  ∃ files,
    list_uploaded_files P case_id w' = (Return files, w')
    ∧ {| l_filename := stored_filename m;
         l_path := file_path m;
         l_size := file_size m |} ∈ files.
Proof.
  intros H.
  destruct (list_uploaded_files_run P case_id w')
    as (files & Hrun & Hnames & Hfiles & _).
  exists files. split; [done|].
  run_of H. cbn [stored_filename file_path file_size].
  rewrite entries_with_entries in Hnames.
  assert (name ∈ l_filename <$> files) as (e & He & Hin)%list_elem_of_fmap.
  { rewrite Hnames. apply dir_lookup_names. rewrite dir_lookup_write_eq. by eexists. }
  destruct (Hfiles e Hin) as (Hp & g & Hg & Hs).
  rewrite Hp, <- He, file_at_with_entries, dir_lookup_write_eq in Hg.
  injection Hg as <-. cbn [content] in Hs.
  destruct e as [en ep es]. cbn [l_filename l_path l_size] in *. by subst.
Qed.

Lemma ingest_then_list_witness :
  ∃ files,
    list_uploaded_files Posix.platform Sample.case Sample.after_notes
    = (Return files, Sample.after_notes)
    ∧ {| l_filename := stored_filename Sample.notes_metadata;
         l_path := file_path Sample.notes_metadata;
         l_size := file_size Sample.notes_metadata |} ∈ files.
Proof.
  apply (ingest_then_list Posix.platform Sample.notes Sample.case Sample.user
           Posix.fresh).
  vm_compute. reflexivity.
Defined.

(** The lookup that follows an ingestion under a fresh identifier. *)
Lemma locate_after_fresh_ingest (P : Platform) (f : FileStorage)
    (case_id uploaded_by : string) (w w' : world) (m : metadata) :
  save_uploaded_file P (Some f) case_id uploaded_by w = (Return (Success m), w') →
  (∀ x, x ∈ (entries (case_dir P case_id) w).*1 →
        Str.startswith x (uuid4 P (draws w)) = false) →
  get_file_path P (document_id m) case_id w' = (Return (Some (file_path m)), w').
Proof.
  intros H Hfresh. rewrite get_file_path_run. run_of H.
  cbn [document_id file_path]. rewrite entries_with_entries, dir_write_names.
  assert (name ∉ (entries d w).*1) as Hnew.
  { intros Hin. specialize (Hfresh _ Hin).
    unfold name in Hfresh. by rewrite stored_name_startswith in Hfresh. }
  rewrite decide_False by done. rewrite first_startswith_app.
  apply first_startswith_None in Hfresh. fold d in Hfresh. rewrite Hfresh.
  cbn [first_startswith]. unfold name at 1. by rewrite stored_name_startswith.
Qed.

(** When no name already in the case directory starts with the
    identifier that is drawn, a lookup by the identifier of a
    successful ingestion answers with exactly the path that ingestion
    returned. *)
Theorem ingest_then_locate (P : Platform) (f : FileStorage)
    (case_id uploaded_by : string) (w w' : world) (m : metadata) :
  save_uploaded_file P (Some f) case_id uploaded_by w = (Return (Success m), w') →
  (∀ x, x ∈ (entries (case_dir P case_id) w).*1 →
        Str.startswith x (uuid4 P (draws w)) = false) →
  get_file_path P (document_id m) case_id w' = (Return (Some (file_path m)), w').
Proof. apply locate_after_fresh_ingest. Qed.

Lemma ingest_then_locate_witness :
  get_file_path Posix.platform (document_id Sample.second_metadata)
    Sample.case Sample.after_notes_twice
  = (Return (Some (file_path Sample.second_metadata)), Sample.after_notes_twice).
Proof.
  apply (ingest_then_locate Posix.platform Sample.notes Sample.case Sample.user
           Sample.after_notes).
  - vm_compute. reflexivity.
  - intros x Hx. vm_compute in Hx. apply list_elem_of_singleton in Hx as ->.
    vm_compute. reflexivity.
Defined.

(** Deleting what was just ingested: under the same freshness of the
    identifier, deleting the document of a successful ingestion
    succeeds, the stored file is gone, and every file of the case
    directory is as it was before the ingestion.  The case directory
    itself remains, also where the ingestion created it. *)
Theorem ingest_then_delete (P : Platform) (f : FileStorage)
    (case_id uploaded_by : string) (w w' : world) (m : metadata) :
  save_uploaded_file P (Some f) case_id uploaded_by w = (Return (Success m), w') →
  (∀ x, x ∈ (entries (case_dir P case_id) w).*1 →
        Str.startswith x (uuid4 P (draws w)) = false) →
  ∃ w'',
    delete_file P (document_id m) case_id w'
    = (Return (Success "File deleted"), w'')
    ∧ file_at (file_path m) w'' = None
    ∧ (∀ n, file_at (case_dir P case_id, n) w''
            = file_at (case_dir P case_id, n) w)
    ∧ is_Some (disk w'' !! case_dir P case_id).
Proof.
  intros H Hfresh.
  pose proof (locate_after_fresh_ingest P f case_id uploaded_by w w' m H Hfresh)
    as Hloc.
  rewrite get_file_path_run in Hloc. injection Hloc as Hloc.
  rewrite delete_file_run. cbv zeta.
  run_of H. cbn [document_id file_path] in *.
  apply fmap_Some in Hloc as (n & Hn & [= <-]). rewrite Hn.
  rewrite entries_with_entries, dir_lookup_write_eq. cbn [immutable].
  assert (name ∉ (entries d w).*1) as Hnew.
  { intros Hin. specialize (Hfresh _ Hin).
    unfold name in Hfresh. by rewrite stored_name_startswith in Hfresh. }
  eexists. split; [reflexivity|].
  assert (∀ x, file_at (d, x)
                 (set_disk (<[d:=dir_remove name (dir_write name
                     {| content := stream f; immutable := false |} (entries d w))]>
                   (disk (with_entries d (dir_write name
                     {| content := stream f; immutable := false |} (entries d w)) w)))
                   (with_entries d (dir_write name
                     {| content := stream f; immutable := false |} (entries d w)) w))
               = dir_lookup x (entries d w)) as Hat.
  { intros x. unfold file_at, set_disk, with_entries. cbn [disk fst snd].
    rewrite !lookup_insert_eq. cbn [mbind option_bind].
    by rewrite dir_remove_write, dir_remove_absent. }
  split_and!.
  - rewrite Hat. apply eq_None_not_Some. intros Hs. by apply dir_lookup_names in Hs.
  - intros x. fold d. by rewrite Hat, file_at_entries_eq.
  - fold d. unfold set_disk. cbn [disk]. rewrite lookup_insert_eq. by eexists.
Qed.

Lemma ingest_then_delete_witness :
  ∃ w'',
    delete_file Posix.platform (document_id Sample.second_metadata)
      Sample.case Sample.after_notes_twice
    = (Return (Success "File deleted"), w'')
    ∧ file_at (file_path Sample.second_metadata) w'' = None
    ∧ (∀ n, file_at (case_dir Posix.platform Sample.case, n) w''
            = file_at (case_dir Posix.platform Sample.case, n) Sample.after_notes)
    ∧ is_Some (disk w'' !! case_dir Posix.platform Sample.case).
Proof.
  apply (ingest_then_delete Posix.platform Sample.notes Sample.case Sample.user
           Sample.after_notes Sample.after_notes_twice).
  - vm_compute. reflexivity.
  - intros x Hx. vm_compute in Hx. apply list_elem_of_singleton in Hx as ->.
    vm_compute. reflexivity.
Defined.

(** ** What a call leaves alone *)

Lemma file_at_entries d n w : file_at (d, n) w = dir_lookup n (entries d w).
Proof. unfold file_at, entries. cbn [fst snd]. by destruct (disk w !! d). Qed.

Lemma startswith_refl_ne n name doc_id :
  Str.startswith n doc_id = false → Str.startswith name doc_id = true → name ≠ n.
Proof. intros Hn Hname ->. congruence. Qed.

(** Whatever its outcome, [save_uploaded_file] leaves every file of the
    case directory whose name does not start with the identifier it
    draws as it was: it writes and removes under the stored name only.
    It draws at most one identifier. *)
Theorem ingest_frame (P : Platform) (file : option FileStorage)
    (case_id uploaded_by : string) (w : world) :
  let w' := (save_uploaded_file P file case_id uploaded_by w).2 in
  let d := case_dir P case_id in
  (∀ n, Str.startswith n (uuid4 P (draws w)) = false →
        file_at (d, n) w' = file_at (d, n) w)
  ∧ (draws w ≤ draws w' ≤ S (draws w))%nat.
Proof.
  intros w' d. subst w'.
  pose proof (save_uploaded_file_runs P file case_id uploaded_by w) as R.
  destruct (save_uploaded_file P file case_id uploaded_by w) as [o w'].
  cbn [snd].
  assert (∀ es,
            (∀ n, Str.startswith n (uuid4 P (draws w)) = false →
                  dir_lookup n es = dir_lookup n (entries d w)) →
            (∀ n, Str.startswith n (uuid4 P (draws w)) = false →
                  file_at (d, n) (with_entries d es w) = file_at (d, n) w)
            ∧ (draws w ≤ draws (with_entries d es w) ≤ S (draws w))%nat)
    as Hframe.
  { intros es Hes. split_and!.
    - intros n Hn. rewrite file_at_with_entries, file_at_entries. by apply Hes.
    - cbn. lia.
    - cbn. lia. }
  inversion R; subst; try (split_and!; [done|lia|lia]); apply Hframe.
  - done.
  - intros x Hx. apply dir_lookup_write_ne.
    eapply startswith_refl_ne; [done|apply stored_name_startswith].
  - intros x Hx. apply dir_lookup_remove_ne.
    eapply startswith_refl_ne; [done|apply stored_name_startswith].
  - intros x Hx. apply dir_lookup_write_ne.
    eapply startswith_refl_ne; [done|apply stored_name_startswith].
Qed.

(** [delete_file] touches at most the one file its lookup finds: every
    other file of the case directory is as it was, also the others
    whose names start with the identifier.  When it answers with an
    error it has changed nothing at all. *)
Theorem delete_frame (P : Platform) (doc_id case_id : string) (w : world) :
  let r := delete_file P doc_id case_id w in
  let d := case_dir P case_id in
  (∀ error, r.1 = Return (Failure error) → r.2 = w)
  ∧ (∀ n, (get_file_path P doc_id case_id w).1 ≠ Return (Some (d, n)) →
          file_at (d, n) r.2 = file_at (d, n) w)
  ∧ draws r.2 = draws w.
Proof.
  intros r d. subst r. rewrite delete_file_run, get_file_path_run. cbv zeta. fold d.
  destruct (first_startswith doc_id (entries d w).*1) as [n|] eqn:Hn;
    [|cbn [fst snd]; split_and!; by eauto].
  destruct (dir_lookup n (entries d w)) as [g|];
    [|cbn [fst snd]; split_and!; by eauto].
  destruct (immutable g); cbn [fst snd]; [split_and!; by eauto|].
  split_and!; [done| |done].
  intros x Hx. rewrite !file_at_entries. unfold entries at 1, set_disk.
  cbn [disk]. rewrite lookup_insert_eq. cbn [default from_option id].
  apply dir_lookup_remove_ne. intros ->. by apply Hx.
Qed.

(** ** Exceptions *)

(** The [IndexError] of line 66 arises exactly for a file object with a
    name that is not empty, that [allowed_file] accepts and whose
    sanitised form has no dot; it arises before anything is drawn or
    written, so the world is as it was. *)
Theorem ingest_index_error_exactly (P : Platform)
    (file : option FileStorage) (case_id uploaded_by : string) (w : world) :
  ((∃ w', save_uploaded_file P file case_id uploaded_by w = (Raise IndexError, w'))
   ↔ ∃ f, file = Some f ∧ filename f ≠ ""
          ∧ allowed_file (filename f) = true
          ∧ Str.contains "." (secure_filename P (filename f)) = false)
  ∧ ∀ w', save_uploaded_file P file case_id uploaded_by w = (Raise IndexError, w') →
          w' = w.
Proof.
  split; [split|].
  - intros [w' H]. run_of H. exists f. split_and!; [done..|]. by apply rcut_none.
  - intros (f & -> & Hn & Ha & Hd). apply rcut_none in Hd. exists w.
    unfold save_uploaded_file, truthy. apply String.eqb_neq in Hn.
    rewrite Hn, Ha. cbn [negb]. unfold mbind, io_bind, lift, index, Str.rsplit1.
    by rewrite Hd.
  - intros w' H. by run_of H.
Qed.

(** ** A repeated identifier *)

(** The handler does not look whether the stored name is taken.  When
    the identifier drawn gives the name of a file that is already in
    the case directory, an accepted upload of allowed size is stored
    over it: the call succeeds, the directory lists the same names, and
    the file now holds the bytes of the new upload. *)
Theorem ingest_overwrites_taken_name (P : Platform) (f : FileStorage)
    (stem ext case_id uploaded_by : string) (w : world) (g : file) :
  let d := case_dir P case_id in
  let name := stored_name P w ext in
  accepted P f stem ext →
  fault f = None →
  (N.of_nat (length (stream f)) ≤ MAX_FILE_SIZE)%N →
  file_at (d, name) w = Some g →
  immutable g = false →
  ∃ m w',
    save_uploaded_file P (Some f) case_id uploaded_by w = (Return (Success m), w')
    ∧ file_path m = (d, name)
    ∧ file_at (d, name) w' = Some (File (stream f) false)
    ∧ (entries d w').*1 = (entries d w).*1.
Proof.
  intros d name Hacc Hf Hsize Hg Hi. rewrite file_at_entries in Hg.
  assert (writable name (entries d w)) as Hw.
  { intros g' Hg'. rewrite Hg in Hg'. by injection Hg' as <-. }
  destruct (stored_run P f stem ext case_id uploaded_by w Hacc Hw Hf Hsize)
    as (m & H & _ & _ & Hp & _).
  eexists m, _. split_and!; [done|done|..].
  - rewrite file_at_with_entries. apply dir_lookup_write_eq.
  - rewrite entries_with_entries, dir_write_names.
    rewrite decide_True; [done|]. apply dir_lookup_names. by eexists.
Qed.

Lemma ingest_overwrites_taken_name_witness :
  let d := case_dir Posix.platform Sample.case in
  let name := stored_name Posix.platform Sample.replayed "txt" in
  ∃ m w',
    save_uploaded_file Posix.platform (Some Sample.other_notes)
      Sample.case Sample.user Sample.replayed
    = (Return (Success m), w')
    ∧ file_path m = (d, name)
    ∧ file_at (d, name) w' = Some (File (stream Sample.other_notes) false)
    ∧ (entries d w').*1 = (entries d Sample.replayed).*1.
Proof.
  apply (ingest_overwrites_taken_name Posix.platform Sample.other_notes
           "notes" "txt" Sample.case Sample.user Sample.replayed
           (File (Posix.bytes_of "0123456789") false)).
  - split_and!; [discriminate|reflexivity..].
  - reflexivity.
  - vm_compute. discriminate.
  - vm_compute. reflexivity.
  - reflexivity.
Defined.

(** ** The extension a file is stored under *)

Section SanitisedExtension.

Implicit Types (s t q : string) (c : ascii).

Lemma sapp_cons c s t : String c s +:+ t = String c (s +:+ t).
Proof. reflexivity. Qed.

Lemma sapp_nil_r s : s +:+ "" = s.
Proof. induction s as [|c s IH]; [done|]. by rewrite sapp_cons, IH. Qed.

Lemma sapp_assoc s t q : (s +:+ t) +:+ q = s +:+ (t +:+ q).
Proof. induction s as [|c s IH]; [done|]. by rewrite !sapp_cons, IH. Qed.

Lemma rev_app_sapp s t : String.rev_app s t = String.rev s +:+ t.
Proof.
  revert t. induction s as [|c s IH]; intros t; [done|].
  unfold String.rev. cbn [String.rev_app].
  rewrite (IH (String c t)), (IH (String c "")). by rewrite sapp_assoc.
Qed.

Lemma srev_cons c s : String.rev (String c s) = String.rev s +:+ String c "".
Proof. unfold String.rev at 1. cbn [String.rev_app]. apply rev_app_sapp. Qed.

Lemma srev_sapp s t : String.rev (s +:+ t) = String.rev t +:+ String.rev s.
Proof.
  induction s as [|c s IH]; [by rewrite sapp_nil_r|].
  by rewrite sapp_cons, !srev_cons, IH, sapp_assoc.
Qed.

Lemma srev_involutive s : String.rev (String.rev s) = s.
Proof.
  induction s as [|c s IH]; [done|]. by rewrite srev_cons, srev_sapp, IH.
Qed.

Lemma string_all_sapp p s t :
  string_all p (s +:+ t) = string_all p s && string_all p t.
Proof.
  induction s as [|c s IH]; [done|].
  rewrite sapp_cons. cbn [string_all]. by rewrite IH, andb_assoc.
Qed.

Lemma string_all_impl (p p' : ascii → bool) s :
  (∀ c, p c = true → p' c = true) → string_all p s = true → string_all p' s = true.
Proof.
  intros Hp. induction s as [|c s IH]; [done|]. cbn [string_all].
  intros [Hc Hs]%andb_true_iff. by rewrite (Hp c Hc), IH.
Qed.

(** A text that is not empty ends in a character. *)
Lemma string_last p s :
  s ≠ "" → string_all p s = true → ∃ s0 c, s = s0 +:+ String c "" ∧ p c = true.
Proof.
  induction s as [|c s IH]; [done|]. intros _. cbn [string_all].
  intros [Hc Hs]%andb_true_iff. destruct s as [|c' s'].
  - by exists "", c.
  - destruct IH as (s0 & c0 & -> & Hc0); [done..|].
    exists (String c s0), c0. by rewrite sapp_cons.
Qed.

(** Letters are safe, are no white space, no separator, no dot and no
    underscore, and are ASCII. *)
Lemma letter_facts c :
  is_letter c = true →
  Werkzeug.is_safe c = true ∧ Werkzeug.is_space c = false
  ∧ Ascii.eqb c "/" = false ∧ Werkzeug.is_dot_or_underscore c = false
  ∧ is_ascii c = true.
Proof. destruct c as [[] [] [] [] [] [] [] []]; vm_compute; intros; done. Qed.

Lemma letter_lower c : is_letter (Str.lower_char c) = true → is_letter c = true.
Proof. destruct c as [[] [] [] [] [] [] [] []]; vm_compute; done. Qed.

Lemma letters_lower s :
  string_all is_letter (Str.lower s) = true → string_all is_letter s = true.
Proof.
  induction s as [|c s IH]; [done|]. cbn [Str.lower string_all].
  intros [Hc Hs]%andb_true_iff. by rewrite (letter_lower c Hc), IH.
Qed.

(** An extension that [allowed_file] accepts is a word of letters. *)
Lemma allowed_extension_letters ext :
  dict_mem (Str.lower ext) ALLOWED_EXTENSIONS = true →
  ext ≠ "" ∧ string_all is_letter ext = true.
Proof.
  unfold dict_mem. rewrite bool_decide_eq_true.
  change (dict_keys ALLOWED_EXTENSIONS) with allow_list. intros Hin. split.
  - intros ->. vm_compute in Hin. set_unfold. naive_solver.
  - apply letters_lower. revert Hin. generalize (Str.lower ext). intros e He.
    unfold allow_list in He. set_unfold.
    destruct He as [->|[->|[->|[->|[->|[->|[->|[]]]]]]]]; reflexivity.
Qed.

Lemma replace_keeps a b s t :
  string_all (λ c, negb (Ascii.eqb c a)) t = true →
  Werkzeug.replace a b (s +:+ t) = Werkzeug.replace a b s +:+ t.
Proof.
  intros Ht. induction s as [|c s IH].
  - cbn [Werkzeug.replace]. change ("" +:+ t) with t.
    induction t as [|c t IH]; [done|]. cbn [string_all] in Ht.
    apply andb_true_iff in Ht as [Hc Ht]. cbn [Werkzeug.replace].
    apply negb_true_iff in Hc. by rewrite Hc, IH.
  - rewrite sapp_cons. cbn [Werkzeug.replace]. by rewrite IH, sapp_cons.
Qed.

Lemma keep_safe_keeps s t :
  string_all Werkzeug.is_safe t = true →
  Werkzeug.keep_safe (s +:+ t) = Werkzeug.keep_safe s +:+ t.
Proof.
  intros Ht. induction s as [|c s IH].
  - cbn [Werkzeug.keep_safe]. change ("" +:+ t) with t.
    induction t as [|c t IH]; [done|]. cbn [string_all] in Ht.
    apply andb_true_iff in Ht as [Hc Ht]. cbn [Werkzeug.keep_safe].
    by rewrite Hc, IH.
  - rewrite sapp_cons. cbn [Werkzeug.keep_safe].
    destruct (Werkzeug.is_safe c); by rewrite IH.
Qed.

(** A run of non-space characters extends the word being read. *)
Lemma split_go_word cur t :
  string_all (λ c, negb (Werkzeug.is_space c)) t = true →
  Werkzeug.split_go (Some cur) t = [String.rev cur +:+ t].
Proof.
  revert cur. induction t as [|c t IH]; intros cur Ht.
  - cbn. by rewrite sapp_nil_r.
  - cbn [string_all] in Ht. apply andb_true_iff in Ht as [Hc Ht].
    apply negb_true_iff in Hc. cbn [Werkzeug.split_go]. rewrite Hc.
    cbn [default from_option id]. rewrite (IH _ Ht), srev_cons.
    by rewrite sapp_assoc.
Qed.

(** A text that ends in a non-empty run of non-space characters splits
    into words of which the last ends in that run. *)
Lemma split_go_suffix t :
  t ≠ "" →
  string_all (λ c, negb (Werkzeug.is_space c)) t = true →
  ∀ s cur, ∃ ws pre, Werkzeug.split_go cur (s +:+ t) = ws ++ [pre +:+ t].
Proof.
  intros Hne Ht s. induction s as [|c s IH]; intros cur.
  - change ("" +:+ t) with t. destruct cur as [cur|].
    + exists [], (String.rev cur). by rewrite split_go_word.
    + destruct t as [|c t]; [done|]. cbn [string_all] in Ht.
      apply andb_true_iff in Ht as [Hc Ht]. apply negb_true_iff in Hc.
      cbn [Werkzeug.split_go]. rewrite Hc. cbn [default from_option id].
      exists [], "". by rewrite split_go_word.
  - rewrite sapp_cons. cbn [Werkzeug.split_go].
    destruct (Werkzeug.is_space c).
    + destruct (IH None) as (ws & pre & ->).
      exists (option_list (String.rev <$> cur) ++ ws), pre. by rewrite app_assoc.
    + apply IH.
Qed.

Lemma join_last sep ws x : ∃ pre, Str.join sep (ws ++ [x]) = pre +:+ x.
Proof.
  induction ws as [|y ws [pre IH]]; [by exists ""|].
  exists (y +:+ sep +:+ pre). rewrite <- app_comm_cons. cbn [Str.join].
  destruct (ws ++ [x]) as [|z zs] eqn:E; [by destruct ws|].
  by rewrite IH, !sapp_assoc.
Qed.

Lemma lstrip_suffix q t :
  Werkzeug.lstrip (q +:+ t) = Werkzeug.lstrip t
  ∨ ∃ q', Werkzeug.lstrip (q +:+ t) = q' +:+ t.
Proof.
  induction q as [|c q IH]; [by left|].
  rewrite sapp_cons. cbn [Werkzeug.lstrip].
  destruct (Werkzeug.is_dot_or_underscore c); [done|].
  right. by exists (String c q).
Qed.

(** Stripping leaves alone a text that ends in another character than
    the dot and the underscore, once its front is stripped. *)
Lemma strip_kept_end s0 c :
  Werkzeug.is_dot_or_underscore c = false →
  Werkzeug.lstrip (s0 +:+ String c "") = s0 +:+ String c "" →
  Werkzeug.strip (s0 +:+ String c "") = s0 +:+ String c "".
Proof.
  intros Hc Hl. unfold Werkzeug.strip. rewrite Hl.
  rewrite srev_sapp. change (String.rev (String c "")) with (String c "").
  rewrite sapp_cons. cbn [Werkzeug.lstrip]. rewrite Hc.
  change (String c ("" +:+ String.rev s0)) with (String.rev (String c "") +:+ String.rev s0).
  by rewrite <- srev_sapp, srev_involutive.
Qed.

Lemma lstrip_idem s : Werkzeug.lstrip (Werkzeug.lstrip s) = Werkzeug.lstrip s.
Proof.
  induction s as [|c s IH]; [done|]. cbn [Werkzeug.lstrip].
  destruct (Werkzeug.is_dot_or_underscore c) eqn:E; [done|].
  cbn [Werkzeug.lstrip]. by rewrite E.
Qed.

(** The sanitised form of a name that ends in a dot and a word of
    letters is that word alone, or ends in the dot and the word. *)
Lemma secure_filename_keeps_extension s ext :
  ext ≠ "" → string_all is_letter ext = true →
  Werkzeug.secure_filename_ascii (s +:+ "." +:+ ext) = ext
  ∨ ∃ q, Werkzeug.secure_filename_ascii (s +:+ "." +:+ ext) = q +:+ "." +:+ ext.
Proof.
  intros Hne Hl. set (t := String "." ext).
  change (s +:+ "." +:+ ext) with (s +:+ t).
  assert (string_all (λ c, negb (Ascii.eqb c "/")) t = true) as Hslash.
  { cbn [t string_all]. apply andb_true_iff. split; [done|].
    eapply string_all_impl; [|exact Hl].
    intros c (_ & _ & -> & _)%letter_facts. done. }
  assert (string_all (λ c, negb (Werkzeug.is_space c)) t = true) as Hspace.
  { cbn [t string_all]. apply andb_true_iff. split; [done|].
    eapply string_all_impl; [|exact Hl].
    intros c (_ & -> & _)%letter_facts. done. }
  assert (string_all Werkzeug.is_safe t = true) as Hsafe.
  { cbn [t string_all]. apply andb_true_iff. split; [done|].
    eapply string_all_impl; [|exact Hl].
    by intros c (-> & _)%letter_facts. }
  unfold Werkzeug.secure_filename_ascii, Werkzeug.split.
  rewrite (replace_keeps _ _ s t Hslash).
  destruct (split_go_suffix t ltac:(done) Hspace
              (Werkzeug.replace "/" " " s) None) as (ws & pre & ->).
  destruct (join_last "_" ws (pre +:+ t)) as (pre' & ->).
  rewrite <- sapp_assoc, (keep_safe_keeps _ t Hsafe).
  set (q := Werkzeug.keep_safe (pre' +:+ pre)).
  destruct (string_last is_letter ext Hne Hl) as (e0 & c & He & Hc).
  apply letter_facts in Hc as (_ & _ & _ & Hc & _).
  assert (Werkzeug.lstrip ext = ext) as Hext.
  { destruct ext as [|c' e']; [done|]. cbn [string_all] in Hl.
    apply andb_true_iff in Hl as [Hc' _].
    apply letter_facts in Hc' as (_ & _ & _ & Hc' & _).
    cbn [Werkzeug.lstrip]. by rewrite Hc'. }
  assert (∀ u, Werkzeug.lstrip (u +:+ String c "") = u +:+ String c "" →
               Werkzeug.strip (u +:+ String c "") = u +:+ String c "") as Hstrip
    by (intros u; by apply strip_kept_end).
  destruct (lstrip_suffix q t) as [Hq|[q' Hq]].
  - left. change (Werkzeug.lstrip t) with (Werkzeug.lstrip ext) in Hq.
    rewrite Hext in Hq.
    assert (Werkzeug.strip (q +:+ t) = Werkzeug.strip ext) as ->.
    { unfold Werkzeug.strip. by rewrite Hq, Hext. }
    rewrite He. apply Hstrip. by rewrite <- He.
  - right. exists q'. change (q' +:+ "." +:+ ext) with (q' +:+ t).
    assert (Werkzeug.strip (q +:+ t) = Werkzeug.strip (q' +:+ t)) as ->.
    { unfold Werkzeug.strip. by rewrite Hq, <- Hq, lstrip_idem. }
    assert (t = String "." e0 +:+ String c "") as Ht by (unfold t; by rewrite He).
    rewrite Ht, <- !sapp_assoc. apply Hstrip.
    rewrite !sapp_assoc, <- Ht. by rewrite <- Hq, lstrip_idem.
Qed.

End SanitisedExtension.

(** The sample platform normalises character by character. *)
Lemma posix_nfkd_faithful : nfkd_faithful Posix.platform.
Proof.
  split; cbn [nfkd_ascii Posix.platform].
  - intros a b. induction a as [|c a IH]; [done|].
    rewrite sapp_cons. cbn [Posix.ascii_only].
    destruct (N_of_ascii c <? 128)%N; by rewrite IH.
  - intros s. induction s as [|c s IH]; [done|]. cbn [string_all Posix.ascii_only].
    intros [Hc Hs]%andb_true_iff. unfold is_ascii in Hc. by rewrite Hc, IH.
Qed.

(** The extension is derived a second time, from the sanitised name,
    yet it cannot differ from the one that was checked: on a platform
    that normalises character by character, a successful ingestion
    stores the file under the lower-case form of the extension of the
    name as it was claimed, which is one of the seven allowed ones, and
    the media type it reports is never missing. *)
Theorem stored_extension_is_allowed (P : Platform) (f : FileStorage)
    (case_id uploaded_by : string) (w w' : world) (m : metadata) :
  nfkd_faithful P →
  save_uploaded_file P (Some f) case_id uploaded_by w = (Return (Success m), w') →
  file_type m ∈ allow_list
  ∧ (∃ stem ext, filename f = stem +:+ "." +:+ ext
                 ∧ Str.contains "." ext = false
                 ∧ file_type m = Str.lower ext)
  ∧ stored_filename m = document_id m +:+ "." +:+ file_type m
  ∧ ∃ t, mime_type m = Some t ∧ t ≠ "".
Proof.
  intros [Happ Hid] H. run_of H.
  cbn [file_type stored_filename document_id mime_type].
  match goal with Hacc : accepted _ _ _ _ |- _ => destruct Hacc as (_ & Ha & Hr) end.
  destruct (allowed_file_cases (filename f)) as [[_ Hf]|(s0 & e0 & Hcut & Hf)];
    [congruence|].
  rewrite Ha in Hf. symmetry in Hf.
  destruct (allowed_extension_letters e0 Hf) as [Hne Hl].
  apply rcut_some in Hcut as [Hname Hdot].
  assert (ext = e0) as ->.
  { unfold secure_filename in Hr. rewrite Hname, Happ in Hr.
    rewrite (Hid (String "." e0)) in Hr.
    2:{ cbn [string_all]. apply andb_true_iff. split; [done|].
        eapply string_all_impl; [|exact Hl].
        by intros c (_ & _ & _ & _ & ->)%letter_facts. }
    destruct (secure_filename_keeps_extension (nfkd_ascii P s0) e0 Hne Hl)
      as [E|[q E]];
      change (nfkd_ascii P s0 +:+ "." +:+ e0)
        with (nfkd_ascii P s0 +:+ String "." e0) in E;
      rewrite E in Hr.
    - apply rcut_none in Hdot. congruence.
    - rewrite (dotted_name_rcut q e0 Hdot) in Hr. by injection Hr. }
  assert (Str.lower e0 ∈ allow_list) as Hin.
  { unfold dict_mem in Hf. by apply bool_decide_eq_true in Hf. }
  split_and!; [done| |done|].
  - by exists s0, e0.
  - change (∃ t, py_or (guess_type P original)
                      (dict_get (Str.lower e0) ALLOWED_EXTENSIONS) = Some t
                 ∧ t ≠ "").
    revert Hin. generalize (Str.lower e0). intros e He.
    assert (∃ t, dict_get e ALLOWED_EXTENSIONS = Some t ∧ t ≠ "") as (t & -> & Ht).
    { unfold allow_list in He. set_unfold.
      destruct He as [->|[->|[->|[->|[->|[->|[->|[]]]]]]]];
        eexists; (split; [reflexivity|discriminate]). }
    unfold py_or. destruct (guess_type P original) as [t'|]; [|by exists t].
    destruct (String.eqb t' "") eqn:E; [by exists t|].
    exists t'. split; [done|]. by apply String.eqb_neq.
Qed.

Lemma stored_extension_is_allowed_witness :
  let m := Sample.notes_metadata in
  file_type m ∈ allow_list
  ∧ (∃ stem ext, filename Sample.notes = stem +:+ "." +:+ ext
                 ∧ Str.contains "." ext = false
                 ∧ file_type m = Str.lower ext)
  ∧ stored_filename m = document_id m +:+ "." +:+ file_type m
  ∧ ∃ t, mime_type m = Some t ∧ t ≠ "".
Proof.
  apply (stored_extension_is_allowed Posix.platform Sample.notes
           Sample.case Sample.user Posix.fresh Sample.after_notes).
  - exact posix_nfkd_faithful.
  - vm_compute. reflexivity.
Defined.

(** ** The empty identifier *)

Lemma startswith_empty s : Str.startswith s "" = true.
Proof. by destruct s. Qed.

(** Every name starts with the empty text.  With the empty identifier
    [get_file_path] answers with the first entry of a case directory
    that has one, and [delete_file] removes that entry. *)
Theorem empty_identifier_matches_first (P : Platform) (case_id : string)
    (w : world) (n : string) (g : file) (rest : directory) :
  let d := case_dir P case_id in
  disk w !! d = Some ((n, g) :: rest) →
  get_file_path P "" case_id w = (Return (Some (d, n)), w)
  ∧ (immutable g = false →
     ∃ w', delete_file P "" case_id w = (Return (Success "File deleted"), w')
         ∧ file_at (d, n) w' = None
         ∧ (entries d w').*1 = filter (λ x, x ≠ n) rest.*1).
Proof.
  intros d Hd.
  assert (entries d w = (n, g) :: rest) as He by (unfold entries; by rewrite Hd).
  split.
  - rewrite get_file_path_run. fold d. rewrite He. cbn [fmap list_fmap fst].
    cbn [first_startswith]. by rewrite startswith_empty.
  - intros Hi. rewrite delete_file_run. cbv zeta. fold d. rewrite He.
    cbn [fmap list_fmap fst first_startswith]. rewrite startswith_empty.
    cbn [dir_lookup]. rewrite String.eqb_refl, Hi.
    eexists. split; [reflexivity|].
    unfold file_at, entries, set_disk. cbn [disk fst snd].
    rewrite !lookup_insert_eq. cbn [mbind option_bind default from_option id].
    split; [apply dir_lookup_remove_eq|].
    rewrite dir_remove_names. rewrite fmap_cons. cbn [fst].
    by rewrite filter_cons_False by naive_solver.
Qed.

Lemma empty_identifier_matches_first_witness :
  let d := case_dir Posix.platform Sample.case in
  get_file_path Posix.platform "" Sample.case Sample.after_notes_twice
  = (Return (Some (d, Sample.notes_name)), Sample.after_notes_twice)
  ∧ (false = false →
     ∃ w', delete_file Posix.platform "" Sample.case Sample.after_notes_twice
           = (Return (Success "File deleted"), w')
         ∧ file_at (d, Sample.notes_name) w' = None
         ∧ (entries d w').*1
           = filter (λ x, x ≠ Sample.notes_name)
               [(Sample.second_name, File (Posix.bytes_of "0123456789") false)].*1).
Proof.
  apply (empty_identifier_matches_first Posix.platform Sample.case
           Sample.after_notes_twice Sample.notes_name
           (File (Posix.bytes_of "0123456789") false)
           [(Sample.second_name, File (Posix.bytes_of "0123456789") false)]).
  vm_compute. reflexivity.
Defined.

(** ** The name kept in the metadata *)

Lemma keep_safe_all s : string_all Werkzeug.is_safe (Werkzeug.keep_safe s) = true.
Proof.
  induction s as [|c s IH]; [done|]. cbn [Werkzeug.keep_safe].
  destruct (Werkzeug.is_safe c) eqn:E; [|done]. cbn [string_all]. by rewrite E, IH.
Qed.

Lemma lstrip_all p s :
  string_all p s = true → string_all p (Werkzeug.lstrip s) = true.
Proof.
  induction s as [|c s IH]; [done|]. cbn [Werkzeug.lstrip string_all].
  intros [Hc Hs]%andb_true_iff.
  destruct (Werkzeug.is_dot_or_underscore c); [by apply IH|].
  cbn [string_all]. by rewrite Hc, Hs.
Qed.

Lemma srev_all p s : string_all p (String.rev s) = string_all p s.
Proof.
  induction s as [|c s IH]; [done|].
  rewrite srev_cons, string_all_sapp, IH. cbn [string_all].
  rewrite andb_true_r. apply andb_comm.
Qed.

Lemma safe_no_separator c : Werkzeug.is_safe c = true → Ascii.eqb c "/" = false.
Proof. destruct c as [[] [] [] [] [] [] [] []]; vm_compute; done. Qed.

(** The name a successful ingestion keeps as [original_filename] holds
    letters, digits, underscores, dots and hyphens only, whatever name
    was claimed; in particular it holds no path separator. *)
Theorem original_filename_is_safe (P : Platform) (f : FileStorage)
    (case_id uploaded_by : string) (w w' : world) (m : metadata) :
  save_uploaded_file P (Some f) case_id uploaded_by w = (Return (Success m), w') →
  original_filename m = secure_filename P (filename f)
  ∧ string_all Werkzeug.is_safe (original_filename m) = true
  ∧ Str.contains "/" (original_filename m) = false.
Proof.
  intros H. run_of H. cbn [original_filename].
  assert (string_all Werkzeug.is_safe original = true) as Hsafe.
  { unfold original, secure_filename, Werkzeug.secure_filename_ascii, Werkzeug.strip.
    rewrite srev_all. apply lstrip_all. rewrite srev_all. apply lstrip_all.
    apply keep_safe_all. }
  split_and!; [done..|].
  clear -Hsafe. induction original as [|c s IH]; [done|].
  cbn [string_all] in Hsafe. apply andb_true_iff in Hsafe as [Hc Hs].
  cbn [Str.contains]. by rewrite (safe_no_separator c Hc), IH.
Qed.

Lemma original_filename_is_safe_witness :
  original_filename Sample.notes_metadata
  = secure_filename Posix.platform (filename Sample.notes)
  ∧ string_all Werkzeug.is_safe (original_filename Sample.notes_metadata) = true
  ∧ Str.contains "/" (original_filename Sample.notes_metadata) = false.
Proof.
  apply (original_filename_is_safe Posix.platform Sample.notes
           Sample.case Sample.user Posix.fresh Sample.after_notes).
  vm_compute. reflexivity.
Defined.
